(** * The replay buffer and the SGLD sampler of [JEM]

    A shallow embedding of [JEM.__init__] (the divisibility check and the
    allocation of the replay buffer), [JEM.sample_p_0] and [JEM.sample_q]
    from [uncertainty_est/models/JEM/jem.py], and the properties of the
    persistent sample buffer and of the Langevin sampler that hold of them.

    Tensors of floating-point numbers are kept abstract: a scalar type [F]
    and a type [T] of tensors of shape [data_shape] with torch's elementwise
    arithmetic as uninterpreted operations.  A batch is a list of [T], the
    replay buffer is a list of [T], slot indices are 64-bit integers.  The
    random number generator and the scoring network are oracles; every call
    of a torch random function consumes one draw number of the generator. *)

From Stdlib Require Import ZArith Lia Bool QArith.
From stdpp Require Import base tactics option list strings gmap.

(** ** Python exceptions and outcomes *)

Inductive exn : Type :=
  | ZeroDivisionError
  | RuntimeError
  | IndexError
  | AssertionError
  | ModelError.

Inductive outcome (A : Type) : Type :=
  | Ok (a : A)
  | Raise (e : exn).
Arguments Ok {A} a.
Arguments Raise {A} e.

Definition is_ok {A : Type} (o : outcome A) : bool :=
  match o with Ok _ => true | Raise _ => false end.

(** ** Integers as torch and Python have them *)

(** The value of a 64-bit signed tensor element after an arithmetic
    operation whose mathematical result is [z]. *)
Definition wrap64 (z : Z) : Z := ((z + 2 ^ 63) mod 2 ^ 64 - 2 ^ 63)%Z.

(** Python's [a // b] and [a % b] on ints. *)
Definition py_floordiv (a b : Z) : outcome Z :=
  if (b =? 0)%Z then Raise ZeroDivisionError else Ok (a / b)%Z.

Definition py_mod (a b : Z) : outcome Z :=
  if (b =? 0)%Z then Raise ZeroDivisionError else Ok (a mod b)%Z.

(** The position in a tensor of [len] rows that index [i] designates:
    negative indices count from the end, anything outside [-len, len) is
    an [IndexError]. *)
Definition slot (len : nat) (i : Z) : option nat :=
  if ((- Z.of_nat len <=? i) && (i <? Z.of_nat len))%Z
  then Some (Z.to_nat (if (i <? 0)%Z then i + Z.of_nat len else i)%Z)
  else None.

(** Broadcasting of two tensors along the batch dimension: equal sizes
    combine row by row, a size of one is repeated, anything else is a
    shape error. *)
Definition bcast {A B C : Type} (f : A → B → C) (l1 : list A) (l2 : list B)
    : outcome (list C) :=
  if (length l1 =? length l2)%nat then Ok (zip_with f l1 l2)
  else match l1, l2 with
       | [a], _ => Ok (map (f a) l2)
       | _, [b] => Ok (map (λ a, f a b) l1)
       | _, _ => Raise RuntimeError
       end.

(** ** The interfaces of the collaborators *)

(** Scalars [F] and tensors [T] of shape [data_shape]. *)
Class Tensor (F T : Type) := {
  fzero : F;
  fone : F;
  fsub : F → F → F;
  flt : F → F → bool;
  tadd : T → T → T;
  tscale : F → T → T
}.

(** The random number generator and the scoring network.  [randint_raw g i],
    [uniform_draw g i], [rand_draw g i] and [randn_draw g i] are row [i] of
    what the call with draw number [g] produces.  The two gradient oracles
    are [torch.autograd.grad(energy, [x_k], retain_graph=True)[0]] for the
    two energies of the loop of [sample_q], taken by the network with
    parameters [params] in the mode [training]: [grad_score_sum] for
    [energy = self.model(x_k, y=y).sum()] and [grad_contrast] for
    [energy = -1.0 * F.cross_entropy(output, target)] on the output of
    [self.model.joint], with [F] as the module binds it (the class [F] of
    [uncertainty_est.models.JEM.model], imported after
    [torch.nn.functional]).  They give one row per position, or the
    exception that the network, the evaluation of the energy or the
    differentiation raises. *)
Class Torch (F T P : Type) := {
  randint_raw : nat → nat → Z;
  uniform_draw : nat → nat → T;
  rand_draw : nat → nat → F;
  randn_draw : nat → nat → T;
  grad_score_sum : bool → P → list T → option (list Z) → outcome (nat → T);
  grad_contrast : bool → P → list T → option (list Z) → outcome (nat → T)
}.

(** The hyperparameters of [JEM.__init__] that the sampler reads. *)
Record JEM (F : Type) : Type := {
  buffer_size : Z;
  n_classes : Z;
  uncond : bool;
  sgld_batch_size : Z;
  sgld_lr : F;
  sgld_std : F;
  reinit_freq : F
}.
Arguments buffer_size {F} _.
Arguments n_classes {F} _.
Arguments uncond {F} _.
Arguments sgld_batch_size {F} _.
Arguments sgld_lr {F} _.
Arguments sgld_std {F} _.
Arguments reinit_freq {F} _.

(** The mutable objects: the network ([self.model], its mode flag and its
    parameters), [self.replay_buffer], which every caller passes to
    [sample_q] and which is therefore the very object that [sample_q]
    assigns to, and the generator. *)
Record state (T P : Type) : Type := {
  training : bool;
  params : P;
  replay_buffer : list T;
  rng : nat
}.
Arguments training {T P} _.
Arguments params {T P} _.
Arguments replay_buffer {T P} _.
Arguments rng {T P} _.
Arguments Build_state {T P} _ _ _ _.

Section Sampler.
Context {F T P : Type} `{!Tensor F T} `{!Torch F T P}.

Abbreviation state := (state T P).

(** ** Computations that update the state and may raise *)

Definition M (A : Type) : Type := state → state * outcome A.

#[global] Instance M_ret : MRet M := λ A a s, (s, Ok a).
#[global] Instance M_bind : MBind M := λ A B k m s,
  match m s with
  | (s', Ok a) => k a s'
  | (s', Raise e) => (s', Raise e)
  end.

Definition lift {A : Type} (o : outcome A) : M A := λ s, (s, o).

Definition py_assert (b : bool) : M unit :=
  lift (if b then Ok tt else Raise AssertionError).

Definition set_training (b : bool) (s : state) : state :=
  Build_state b (params s) (replay_buffer s) (rng s).

Definition set_buffer (buf : list T) (s : state) : state :=
  Build_state (training s) (params s) buf (rng s).

Definition tick (s : state) : state :=
  Build_state (training s) (params s) (replay_buffer s) (S (rng s)).

(** [self.model.eval()] and [self.model.train()] *)
Definition model_eval : M unit := λ s, (set_training false s, Ok tt).
Definition model_train : M unit := λ s, (set_training true s, Ok tt).

Definition get_buffer : M (list T) := λ s, (s, Ok (replay_buffer s)).
Definition put_buffer (buf : list T) : M unit := λ s, (set_buffer buf s, Ok tt).

(** ** torch's random functions *)

Definition rows {A : Type} (bs : Z) (f : nat → A) : list A :=
  map f (seq 0 (Z.to_nat bs)).

(** [torch.randint(0, high, (bs,))] *)
Definition torch_randint (high bs : Z) : M (list Z) := λ s,
  if ((high <=? 0) || (bs <? 0))%Z then (s, Raise RuntimeError)
  else (tick s, Ok (rows bs (λ i, randint_raw (rng s) i mod high)%Z)).

(** [torch.rand(bs)] *)
Definition torch_rand (bs : Z) : M (list F) := λ s,
  if (bs <? 0)%Z then (s, Raise RuntimeError)
  else (tick s, Ok (rows bs (rand_draw (rng s)))).

(** [torch.randn_like(x_k)] *)
Definition torch_randn_like (x_k : list T) : M (nat → T) := λ s,
  (tick s, Ok (randn_draw (rng s))).

(** Modelled from the spec: [init_random] of
    [uncertainty_est.models.JEM.utils], which is not among the sources.
    [init_random(bs, data_shape)] returns [bs] freshly drawn random
    samples of shape [data_shape]; a negative size is torch's error. *)
Definition init_random (bs : Z) : M (list T) := λ s,
  if (bs <? 0)%Z then (s, Raise RuntimeError)
  else (tick s, Ok (rows bs (uniform_draw (rng s)))).

(** ** Indexing the buffer with a tensor of indices *)

(** [replay_buffer[inds]] *)
Fixpoint index_get (buf : list T) (inds : list Z) : outcome (list T) :=
  match inds with
  | [] => Ok []
  | i :: inds' =>
      match slot (length buf) i ≫= (buf !!.) with
      | None => Raise IndexError
      | Some v =>
          match index_get buf inds' with
          | Ok vs => Ok (v :: vs)
          | Raise e => Raise e
          end
      end
  end.

(** [replay_buffer[inds] = vals].  The rows are stored one after the
    other in the order of the batch, as the serial CPU kernel does, so that
    of two rows stored at one slot the later one stays; torch promises no
    order there, and the properties of the write-back below speak of slots
    that one position has drawn, where the order plays no part.  In
    [sample_q] the indices have been read from the same buffer before, and
    there are as many rows as indices, so that neither error is met there
    (see [index_put_after_get]). *)
Fixpoint index_put (buf : list T) (inds : list Z) (vals : list T)
    : outcome (list T) :=
  match inds, vals with
  | [], [] => Ok buf
  | i :: inds', v :: vals' =>
      match slot (length buf) i with
      | None => Raise IndexError
      | Some k => index_put (<[k:=v]> buf) inds' vals'
      end
  | _, _ => Raise RuntimeError
  end.

Definition index_assign (inds : list Z) (vals : list T) : M unit := λ s,
  match index_put (replay_buffer s) inds vals with
  | Ok buf => (set_buffer buf s, Ok tt)
  | Raise e => (s, Raise e)
  end.

(** ** [JEM.__init__], lines 52 to 57 *)

Definition JEM_init (self : JEM F) : M unit :=
  (if negb (uncond self)
   then r ← lift (py_mod (buffer_size self) (n_classes self));
        py_assert (r =? 0)%Z
   else mret tt);;
  buf ← init_random (buffer_size self);
  put_buffer buf.

(** ** [JEM.sample_p_0] *)

Definition sample_p_0 (self : JEM F) (bs : Z) (y : option (list Z))
    : M (list T * list Z) :=
  replay_buffer ← get_buffer;
  if (length replay_buffer =? 0)%nat then
    samples ← init_random bs;
    mret (samples, [])
  else
    buffer_size ← lift (match y with
                        | None => Ok (Z.of_nat (length replay_buffer))
                        | Some _ => py_floordiv (Z.of_nat (length replay_buffer))
                                      (n_classes self)
                        end);
    inds ← torch_randint buffer_size bs;
    inds ← match y with
           | None => mret inds
           | Some y =>
               inds ← lift (bcast (λ l i, wrap64 (wrap64 (l * buffer_size) + i))
                              y inds);
               py_assert (negb (uncond self));;
               mret inds
           end;
    buffer_samples ← lift (index_get replay_buffer inds);
    random_samples ← init_random bs;
    u ← torch_rand bs;
    let choose_random :=
      map (λ x, if flt x (reinit_freq self) then fone else fzero) u in
    a ← lift (bcast tscale choose_random random_samples);
    b ← lift (bcast tscale (map (fsub fone) choose_random) buffer_samples);
    samples ← lift (bcast tadd a b);
    mret (samples, inds).

(** ** [JEM.sample_q] *)

(** The update of one step of the loop,
    [x_k.data += self.sgld_lr * f_prime + self.sgld_std * torch.randn_like(x_k)],
    on every row of the batch. *)
Definition sgld_update (self : JEM F) (x_k : list T) (f_prime noise : nat → T)
    : list T :=
  imap (λ i x, tadd x (tadd (tscale (sgld_lr self) (f_prime i))
                            (tscale (sgld_std self) (noise i)))) x_k.

(** The body of the loop up to [f_prime]: the energy of the branch that
    [contrast] selects and its gradient with respect to [x_k], by the
    network as it is at the time of the call. *)
Definition autograd_energy (contrast : bool) (y : option (list Z)) (x_k : list T)
    : M (nat → T) :=
  λ s, (s, if negb contrast
           then grad_score_sum (training s) (params s) x_k y
           else grad_contrast (training s) (params s) x_k y).

(** [for _ in range(n_steps): ...] *)
Fixpoint sgld (self : JEM F) (contrast : bool) (y : option (list Z))
    (n_steps : nat) (x_k : list T) : M (list T) :=
  match n_steps with
  | O => mret x_k
  | S n =>
      f_prime ← autograd_energy contrast y x_k;
      noise ← torch_randn_like x_k;
      sgld self contrast y n (sgld_update self x_k f_prime noise)
  end.

Definition sample_q (self : JEM F) (y : option (list Z)) (n_steps : Z)
    (contrast : bool) : M (list T) :=
  model_eval;;
  let bs := match y with
            | None => sgld_batch_size self
            | Some y => Z.of_nat (length y)
            end in
  '(init_sample, buffer_inds) ← sample_p_0 self bs y;
  let x_k := init_sample in
  x_k ← sgld self contrast y (Z.to_nat n_steps) x_k;
  model_train;;
  let final_samples := x_k in
  replay_buffer ← get_buffer;
  (if (0 <? length replay_buffer)%nat
   then index_assign buffer_inds final_samples
   else mret tt);;
  mret final_samples.

(** The local variable [buffer_size] of [sample_p_0] for a buffer that is
    not empty, and the local variable [bs] of [sample_q]. *)
Definition block_size (self : JEM F) (y : option (list Z)) (s : state) : Z :=
  match y with
  | None => Z.of_nat (length (replay_buffer s))
  | Some _ => (Z.of_nat (length (replay_buffer s)) / n_classes self)%Z
  end.

Definition batch_size (self : JEM F) (y : option (list Z)) : Z :=
  match y with
  | None => sgld_batch_size self
  | Some y => Z.of_nat (length y)
  end.

(** A computation that leaves the network and the buffer alone: it may
    only draw from the generator. *)
Definition draws_only {A : Type} (m : M A) : Prop :=
  ∀ s s' r, m s = (s', r) →
    training s' = training s ∧ params s' = params s ∧
    replay_buffer s' = replay_buffer s ∧ rng s ≤ rng s'.

End Sampler.

(** ** The sampler in the words of the specification *)

(** One update step: every position becomes
    [position + (η * gradient + σ * standard_gaussian_noise)]. *)
Definition langevin_step {F T : Type} `{!Tensor F T} (eta sigma : F)
    (gradient noise : nat → T) (positions : list T) : list T :=
  imap (λ i position,
          tadd position (tadd (tscale eta (gradient i)) (tscale sigma (noise i))))
       positions.

(** [K] steps from [positions]: each step takes the gradient of the total
    score at the current positions and a noise tensor that no other step
    uses, the one of draw number [g], [g + 1], ... *)
Fixpoint langevin {F T : Type} `{!Tensor F T}
    (score_grad : list T → outcome (nat → T)) (noise : nat → nat → T)
    (eta sigma : F) (K : nat) (g : nat) (positions : list T)
    : outcome (list T) :=
  match K with
  | O => Ok positions
  | S K' =>
      match score_grad positions with
      | Raise e => Raise e
      | Ok gradient =>
          langevin score_grad noise eta sigma K' (S g)
            (langevin_step eta sigma gradient (noise g) positions)
      end
  end.

(** The gradient that the loop of [sample_q] takes when the network has
    mode [training] and parameters [params]: of the summed score when
    [contrast] is false, of the negated cross-entropy when it is true. *)
Definition energy_gradient {F T P : Type} `{!Torch F T P} (contrast training : bool)
    (params : P) (y : option (list Z)) (positions : list T) : outcome (nat → T) :=
  if negb contrast
  then grad_score_sum training params positions y
  else grad_contrast training params positions y.

(** ** A small world to run the sampler in

    Scalars are integers, a tensor is an integer or [None] for a tensor
    with a NaN or Inf in it, which every operation propagates. *)
Module Toy.

Definition is_finite (t : option Z) : bool :=
  match t with Some _ => true | None => false end.

Definition add (a b : option Z) : option Z :=
  match a, b with
  | Some x, Some y => Some (x + y)%Z
  | _, _ => None
  end.

Definition scale (c : Z) (a : option Z) : option Z :=
  match a with
  | Some x => Some (c * x)%Z
  | None => None
  end.

Definition tensor : Tensor Z (option Z) := {|
  fzero := 0%Z;
  fone := 1%Z;
  fsub := Z.sub;
  flt := Z.ltb;
  tadd := add;
  tscale := scale
|}.

(** Slot draws [ri], no reinitialisation when [reinit_freq] is [0] (every
    uniform number drawn is [1]), noise [i] at row [i], and the given
    gradients. *)
Definition torch (ri : nat → nat → Z) (gs gc : outcome (nat → option Z))
    : Torch Z (option Z) unit := {|
  randint_raw := ri;
  uniform_draw := λ _ i, Some (100 + Z.of_nat i)%Z;
  rand_draw := λ _ _, 1%Z;
  randn_draw := λ _ i, Some (Z.of_nat i);
  grad_score_sum := λ _ _ _ _, gs;
  grad_contrast := λ _ _ _ _, gc
|}.

Definition jem (buffer_size n_classes : Z) (uncond : bool) (bs : Z) : JEM Z := {|
  buffer_size := buffer_size;
  n_classes := n_classes;
  uncond := uncond;
  sgld_batch_size := bs;
  sgld_lr := 1%Z;
  sgld_std := 1%Z;
  reinit_freq := 0%Z
|}.

Definition st (training : bool) (buf : list (option Z)) : state (option Z) unit :=
  Build_state training tt buf 0.

Definition zero_grad : outcome (nat → option Z) := Ok (λ _, Some 0%Z).
Definition one_grad : outcome (nat → option Z) := Ok (λ _, Some 1%Z).
Definition inf_grad : outcome (nat → option Z) := Ok (λ _, None).

(** Row [i] draws [7 * i]: for the labels [0, 0, 3, 3, 9] and blocks of
    ten slots these are the slots 0, 7, 34, 31 and 98. *)
Definition world_blocks : Torch Z (option Z) unit :=
  torch (λ _ i, 7 * Z.of_nat i)%Z zero_grad zero_grad.

(** Every row draws slot 0; the gradient of the summed score is zero and
    that of the negated cross-entropy is one. *)
Definition world_same_slot : Torch Z (option Z) unit :=
  torch (λ _ _, 0%Z) zero_grad one_grad.

(** Row [i] draws slot [i]. *)
Definition world_own_slot : Torch Z (option Z) unit :=
  torch (λ _ i, Z.of_nat i) zero_grad zero_grad.

(** Every row draws slot 0, and the gradient of the score is not finite. *)
Definition world_inf : Torch Z (option Z) unit :=
  torch (λ _ _, 0%Z) inf_grad zero_grad.

(** Every row draws slot 0; the gradient of the summed score is zero and
    the contrastive energy raises. *)
Definition world_contrast_raises : Torch Z (option Z) unit :=
  torch (λ _ _, 0%Z) zero_grad (Raise ModelError).

(** Every row draws slot 0, and the network raises. *)
Definition world_raise : Torch Z (option Z) unit :=
  torch (λ _ _, 0%Z) (Raise ModelError) (Raise ModelError).

(** A buffer of a hundred slots, slot [i] holding [i], and one of two. *)
Definition buf100 : list (option Z) :=
  map (λ i, Some (Z.of_nat i)) (seq 0 100).

Definition buf2 : list (option Z) := [Some 10%Z; Some 20%Z].

(** An unconditional model with a buffer of two slots and batches of two,
    and a class-conditional one with a hundred slots and ten classes. *)
Definition jem2 : JEM Z := jem 2 1 true 2.
Definition jem100 : JEM Z := jem 100 10 false 5.

Definition run_p_0 (W : Torch Z (option Z) unit) :=
  @sample_p_0 Z (option Z) unit tensor W.
Definition run_q (W : Torch Z (option Z) unit) :=
  @sample_q Z (option Z) unit tensor W.
Definition run_init (W : Torch Z (option Z) unit) :=
  @JEM_init Z (option Z) unit W.

End Toy.

(** * The module around the sampler

    [JEM.compute_losses], which calls [sample_q], the steps of training,
    validation and test that call it, and [JEM.ood_detect] and
    [JEM.get_gt_preds]. *)

(** Exceptions of the module: those of the sampler and of torch, and the
    one that Python raises for a local variable read before it is bound. *)
Inductive error : Type :=
  | Exn (e : exn)
  | UnboundLocalError.

Inductive result (A : Type) : Type :=
  | Return (a : A)
  | Throw (e : error).
Arguments Return {A} a.
Arguments Throw {A} e.

(** What a forward pass of the network gives: its state afterwards (a pass
    in training mode updates the statistics of its layers), the number of
    draws it has taken from the generator, and its value or exception. *)
Record pass (P A : Type) : Type := {
  net : P;
  used : nat;
  out : outcome A
}.
Arguments net {P A} _.
Arguments used {P A} _.
Arguments out {P A} _.

(** The network and the functions of [uncertainty_est.models.JEM.utils]
    and of torch that the module calls.  A forward pass is given the mode
    flag, the state of the network and the draw number of the generator.
    [R] is a row of logits, [D] a batch of target distributions. *)
Class Network (F T P R D : Type) := {
  classify : bool → P → nat → list T → pass P (list R);
  forward : bool → P → nat → list T → pass P (list F);
  mean : list F → F;
  smooth_one_hot : list Z → Z → F → outcome D;
  khot_cross_entropy : list R → D → outcome F;
  linalg_norm_mean : string → F → outcome F;
  accuracy : list Z → list R → outcome F;
  int_zero : F;
  fneg : F → F;
  fadd : F → F → F;
  fmul : F → F → F
}.

(** The hyperparameters of [JEM.__init__] that the losses read. *)
Record hparams (F : Type) : Type := {
  jem : JEM F;
  pyxce : F;
  pxsgld : F;
  pxysgld : F;
  class_cond_p_x_sample : bool;
  sgld_steps : Z;
  smoothing : F;
  energy_reg_weight : F;
  energy_reg_type : string
}.
Arguments jem {F} _.
Arguments pyxce {F} _.
Arguments pxsgld {F} _.
Arguments pxysgld {F} _.
Arguments class_cond_p_x_sample {F} _.
Arguments sgld_steps {F} _.
Arguments smoothing {F} _.
Arguments energy_reg_weight {F} _.
Arguments energy_reg_type {F} _.

(** The objects of [state], the flag of [torch.set_grad_enabled] and what
    [self.log] has recorded. *)
Record lightning (F T P : Type) : Type := {
  core : state T P;
  grad_enabled : bool;
  logged : list (string * F)
}.
Arguments core {F T P} _.
Arguments grad_enabled {F T P} _.
Arguments logged {F T P} _.
Arguments Build_lightning {F T P} _ _ _.

Section Module.
Context {F T P R D : Type} `{!Tensor F T} `{!Torch F T P} `{!Network F T P R D}.

Abbreviation world := (lightning F T P).

Definition L (A : Type) : Type := world → world * result A.

#[global] Instance L_ret : MRet L := λ A a w, (w, Return a).
#[global] Instance L_bind : MBind L := λ A B k m w,
  match m w with
  | (w', Return a) => k a w'
  | (w', Throw e) => (w', Throw e)
  end.

Definition set_core (s : state T P) (w : world) : world :=
  Build_lightning s (grad_enabled w) (logged w).

Definition to_result {A : Type} (o : outcome A) : result A :=
  match o with
  | Ok a => Return a
  | Raise e => Throw (Exn e)
  end.

(** A computation of the sampler, run on the objects of the module. *)
Definition sampler {A : Type} (m : M A) : L A := λ w,
  let '(s, o) := m (core w) in (set_core s w, to_result o).

(** A function that neither reads nor changes an object. *)
Definition pure {A : Type} (o : outcome A) : L A := λ w, (w, to_result o).

(** A forward pass of the network as it is. *)
Definition run_pass {A : Type} (f : bool → P → nat → pass P A) : L A := λ w,
  let s := core w in
  let r := f (training s) (params s) (rng s) in
  (set_core (Build_state (training s) (net r) (replay_buffer s) (rng s + used r)) w,
   to_result (out r)).

(** [torch.set_grad_enabled(b)] and [self.log(name, value)] *)
Definition set_grad_enabled (b : bool) : L unit := λ w,
  (Build_lightning (core w) b (logged w), Return tt).

Definition log (name : string) (value : F) : L unit := λ w,
  (Build_lightning (core w) (grad_enabled w) (logged w ++ [(name, value)]),
   Return tt).

(** [self.eval()] *)
Definition self_eval : L unit := sampler model_eval.

(** [torch.cat(tensors)] along the batch dimension *)
Definition torch_cat {A : Type} (tensors : list (list A)) : outcome (list A) :=
  match tensors with
  | [] => Raise RuntimeError
  | _ :: _ => Ok (concat tensors)
  end.

(** The value of a local variable that an earlier branch may have bound. *)
Definition local {A : Type} (v : option A) : L A := λ w,
  match v with
  | Some a => (w, Return a)
  | None => (w, Throw UnboundLocalError)
  end.

(** ** [JEM.forward] and [JEM.compute_energy_reg] *)

Definition JEM_forward (x : list T) : L (list R) := run_pass (λ t p g, classify t p g x).

Definition compute_energy_reg (self : hparams F) (energy : F) : L F :=
  pure (linalg_norm_mean (energy_reg_type self) energy).

(** [self.model(x).mean()] *)
Definition model_mean (x : list T) : L F :=
  scores ← run_pass (λ t p g, forward t p g x);
  mret (mean scores).

(** ** [JEM.compute_losses] *)

Definition compute_losses (self : hparams F) (x_lab : list T) (y_lab : list Z)
    (x_p_d : list T) (dist : D) (logits : option (list R)) : L (F * F * F) :=
  l_pyxce ←
    (if flt fzero (pyxce self) then
       logits ← match logits with
                | None => run_pass (λ t p g, classify t p g x_lab)
                | Some logits => mret logits
                end;
       l_pyxce ← pure (khot_cross_entropy logits dist);
       mret (fmul l_pyxce (pyxce self))
     else mret fzero);
  '(l_pxsgld, fp) ←
    (if flt fzero (pxsgld self) then
       x_q ←
         (if class_cond_p_x_sample self then
            sampler (py_assert (negb (uncond (jem self))));;
            y_q ← sampler (torch_randint (n_classes (jem self))
                             (sgld_batch_size (jem self)));
            sampler (sample_q (jem self) (Some y_q) 20 false)
          else
            sampler (sample_q (jem self) None (sgld_steps self) false));
       fp ← model_mean x_p_d;
       fq ← model_mean x_q;
       mret (fmul (fneg (fsub fp fq)) (pxsgld self), Some fp)
     else mret (fzero, None));
  '(l_pxysgld, fp) ←
    (if flt fzero (pxysgld self) then
       x_q_lab ← sampler (sample_q (jem self) (Some y_lab) 20 false);
       fp ← model_mean x_lab;
       fq ← model_mean x_q_lab;
       mret (fmul (fneg (fsub fp fq)) (pxysgld self), Some fp)
     else mret (fzero, fp));
  fp ← local fp;
  reg ← compute_energy_reg self fp;
  mret (fadd l_pyxce (fmul (energy_reg_weight self) reg), l_pxsgld, l_pxysgld).

(** [sum(losses)] on the tuple of the three losses *)
Definition sum_losses (losses : F * F * F) : F :=
  let '(l_pyxce, l_pxsgld, l_pxysgld) := losses in
  fadd (fadd (fadd int_zero l_pyxce) l_pxsgld) l_pxysgld.

(** ** The steps *)

Definition training_step (self : hparams F) (batch : (list T * list Z) * list T)
    : L F :=
  let '((x_lab, y_lab), x_p_d) := batch in
  dist ← pure (smooth_one_hot y_lab (n_classes (jem self)) (smoothing self));
  losses ← compute_losses self x_lab y_lab x_p_d dist None;
  mret (sum_losses losses).

Definition validation_step (self : hparams F) (batch : (list T * list Z) * list T)
    : L unit :=
  let '((x_lab, y_lab), x_p_d) := batch in
  dist ← pure (smooth_one_hot y_lab (n_classes (jem self)) (smoothing self));
  logits ← JEM_forward x_lab;
  set_grad_enabled true;;
  losses ← compute_losses self x_lab y_lab x_p_d dist (Some logits);
  let loss := sum_losses losses in
  set_grad_enabled false;;
  log "val_loss" loss;;
  acc ← pure (accuracy y_lab logits);
  log "val_acc" acc.

Definition test_step (batch : list T * list Z) : L unit :=
  let '(x, y) := batch in
  y_hat ← JEM_forward x;
  acc ← pure (accuracy y y_hat);
  log "test_acc" acc.

(** ** [JEM.get_gt_preds] and [JEM.ood_detect] *)

(** [for x, y in loader: out.append(f(x))] *)
Fixpoint for_batches {A : Type} (f : list T → L A) (loader : list (list T * list Z))
    : L (list A) :=
  match loader with
  | [] => mret []
  | (x, y) :: loader' =>
      a ← f x;
      rest ← for_batches f loader';
      mret (a :: rest)
  end.

Definition get_gt_preds (loader : list (list T * list Z))
    : L (list Z * list R) :=
  self_eval;;
  set_grad_enabled false;;
  preds ← for_batches JEM_forward loader;
  gt ← pure (torch_cat (map snd loader));
  preds ← pure (torch_cat preds);
  mret (gt, preds).

Definition ood_detect (loader : list (list T * list Z))
    : L (gmap string (list F)) :=
  self_eval;;
  set_grad_enabled false;;
  scores ← for_batches (λ x, run_pass (λ t p g, forward t p g x)) loader;
  p_x ← pure (torch_cat scores);
  mret {["p(x)" := p_x]}.

(** What a computation leaves alone: the capacity of the buffer, the flag
    of [set_grad_enabled] and the log. *)
Definition frame (w w' : world) : Prop :=
  length (replay_buffer (core w')) = length (replay_buffer (core w)) ∧
  grad_enabled w' = grad_enabled w ∧ logged w' = logged w.

(** A computation that keeps the frame, the mode of the network and the
    contents of the buffer. *)
Definition quiet {A : Type} (m : L A) : Prop :=
  ∀ w w' r, m w = (w', r) →
    frame w w' ∧ training (core w') = training (core w) ∧
    replay_buffer (core w') = replay_buffer (core w).

(** A computation that keeps the frame however it ends. *)
Definition framed {A : Type} (m : L A) : Prop :=
  ∀ w w' r, m w = (w', r) → frame w w'.

(** The objects after [self.eval()] and [torch.set_grad_enabled(False)]. *)
Definition evaluating (w : world) : world :=
  Build_lightning (set_training false (core w)) false (logged w).

End Module.

(** * The class counts of [VERAPosteriorNet.setup]

    [VERAPosteriorNet.setup] of
    [uncertainty_est/models/JEM/vera_posteriornet.py].  The loader is the
    list of its label batches, [class_counts] a tensor of [float32] that
    holds whole numbers. *)

(** [x + 1] in [float32] for a whole number [x] between 0 and 2^24: beyond
    2^24 the sum is not representable and is rounded back to 2^24. *)
Definition f32_succ (x : Z) : Z := if (x <? 2 ^ 24)%Z then (x + 1)%Z else x.

(** [class_counts[y] += 1]: the counts at [y] are read, one is added to
    each value read, and the sums are stored at [y]. *)
Definition count_batch (class_counts : list Z) (y : list Z) : outcome (list Z) :=
  match index_get class_counts y with
  | Raise e => Raise e
  | Ok read => index_put class_counts y (map f32_succ read)
  end.

(** [for (_, y), (_, _) in train_loader: class_counts[y] += 1] *)
Fixpoint count_batches (class_counts : list Z) (train_loader : list (list Z))
    : outcome (list Z) :=
  match train_loader with
  | [] => Ok class_counts
  | y :: train_loader' =>
      match count_batch class_counts y with
      | Raise e => Raise e
      | Ok class_counts' => count_batches class_counts' train_loader'
      end
  end.

Section Setup.
Context {Fl : Type} (f32_div : Z → Z → Fl).

(** [setup]: the value of [self.class_counts] and of [self.p_y], with
    [f32_div] for the division of a count by the length of the dataset. *)
Definition VERAPosteriorNet_setup (n_classes : Z) (train_loader : list (list Z))
    (dataset_len : Z) : outcome (list Z * list Fl) :=
  if (n_classes <? 0)%Z then Raise RuntimeError
  else
    match count_batches (replicate (Z.to_nat n_classes) 0%Z) train_loader with
    | Raise e => Raise e
    | Ok class_counts =>
        Ok (class_counts, map (λ c, f32_div c dataset_len) class_counts)
    end.

End Setup.

(** Whether a batch of labels holds a label that designates class [c] of
    [n], and the number of batches of a loader that do. *)
Definition batch_has (n c : nat) (y : list Z) : bool :=
  existsb (λ l, bool_decide (slot n l = Some c)) y.

Fixpoint batches_with (n c : nat) (train_loader : list (list Z)) : nat :=
  match train_loader with
  | [] => 0
  | y :: train_loader' =>
      (if batch_has n c y then 1 else 0) + batches_with n c train_loader'
  end.

(** ** A small module to run

    Rows of logits and scores are integers; the classifier answers zero
    for every sample, the score of a sample is the integer it holds, the
    mean is the sum, both cross-entropy and norm give their argument
    back. *)
Module ToyModule.

Definition network : Network Z (option Z) unit Z unit := {|
  classify := λ _ p _ x, {| net := p; used := 0; out := Ok (map (λ _, 0%Z) x) |};
  forward := λ _ p _ x,
    {| net := p; used := 0; out := Ok (map (λ t, default 0%Z t) x) |};
  mean := foldr Z.add 0%Z;
  smooth_one_hot := λ _ _ _, Ok tt;
  khot_cross_entropy := λ logits _, Ok (foldr Z.add 0%Z logits);
  linalg_norm_mean := λ _ energy, Ok energy;
  accuracy := λ _ _, Ok 1%Z;
  int_zero := 0%Z;
  fneg := Z.opp;
  fadd := Z.add;
  fmul := Z.mul
|}.

(** Losses switched on by a weight of one and off by a weight of zero. *)
Definition hp (uncond : bool) (pyxce pxsgld pxysgld : Z) (class_cond : bool)
    : hparams Z := {|
  jem := Toy.jem 2 1 uncond 2;
  pyxce := pyxce;
  pxsgld := pxsgld;
  pxysgld := pxysgld;
  class_cond_p_x_sample := class_cond;
  sgld_steps := 3;
  smoothing := 0%Z;
  energy_reg_weight := 0%Z;
  energy_reg_type := "2"
|}.

Definition world (training grad : bool) : lightning Z (option Z) unit :=
  Build_lightning (Toy.st training Toy.buf2) grad [].

Definition batch : (list (option Z) * list Z) * list (option Z) :=
  (([Some 1%Z; Some 2%Z], [0%Z; 0%Z]), [Some 3%Z; Some 4%Z]).

Definition loader : list (list (option Z) * list Z) :=
  [([Some 1%Z; Some 2%Z], [0%Z; 1%Z]); ([Some 3%Z], [1%Z])].

(** A class-conditional or unconditional model with two classes and a
    buffer of four slots. *)
Definition jem4 (uncond : bool) : JEM Z := Toy.jem 4 2 uncond 2.
Definition buf4 : list (option Z) := [Some 1%Z; Some 2%Z; Some 3%Z; Some 4%Z].

Definition run_losses (W : Torch Z (option Z) unit) :=
  @compute_losses Z (option Z) unit Z unit Toy.tensor W network.
Definition run_validation (W : Torch Z (option Z) unit) :=
  @validation_step Z (option Z) unit Z unit Toy.tensor W network.
Definition run_ood_detect :=
  @ood_detect Z (option Z) unit Z unit network.
Definition run_get_gt_preds :=
  @get_gt_preds Z (option Z) unit Z unit network.

End ToyModule.

(** * The normalizing flow of [flows.py]

    [OrthogonalTransform] and [NormalizingFlowDensity] of
    [uncertainty_est/models/normalizing_flow/flows.py].  [V] is a batch of
    points, [J] what a log-determinant or a log-density is (a number or a
    tensor of one number per point). *)

(** A transform of a flow: what it does to a batch and its
    [log_abs_det_jacobian(z, z_next)]. *)
Record transform (V J : Type) : Type := {
  apply_transform : V → V;
  log_abs_det_jacobian : V → V → J
}.
Arguments apply_transform {V J} _.
Arguments log_abs_det_jacobian {V J} _.

(** What the flow takes from pyro and torch: the transforms [Radial(dim)],
    [affine_autoregressive(dim, hidden_dims=[128, 128])] and [Planar(dim)],
    each as created at the given place of the list or the exception that
    its constructor raises, the layer [nn.Linear(dim, dim, bias=False)],
    the log-density of the standard normal
    [MultivariateNormal(self.mean, self.cov)], the numbers [0] and [1.0]
    and the sum. *)
Class Pyro (V J : Type) := {
  Radial : Z → nat → outcome (transform V J);
  affine_autoregressive : Z → nat → outcome (transform V J);
  Planar : Z → nat → outcome (transform V J);
  Linear : Z → nat → V → V;
  normal_log_prob : V → J;
  zero : J;
  one_float : J;
  jadd : J → J → J
}.

(** What the constructor of the flow gives or raises. *)
Inductive built (A : Type) : Type :=
  | Built (a : A)
  | NotImplementedError
  | TorchError (e : exn).
Arguments Built {A} a.
Arguments NotImplementedError {A}.
Arguments TorchError {A} e.

Section Flow.
Context {V J : Type} `{!Pyro V J}.

(** [OrthogonalTransform(dim)]: [forward] is the linear layer, and the
    static [log_abs_det_jacobian] returns [1.0]. *)
Definition OrthogonalTransform (dim : Z) (k : nat) : transform V J := {|
  apply_transform := Linear dim k;
  log_abs_det_jacobian := λ z z_next, one_float
|}.

(** [[make(k) for k in range]]: the list of what [make] builds, or the
    first exception. *)
Fixpoint build_list {A : Type} (make : nat → outcome A) (range : list nat)
    : built (list A) :=
  match range with
  | [] => Built []
  | k :: range' =>
      match make k with
      | Raise e => TorchError e
      | Ok a =>
          match build_list make range' with
          | Built l => Built (a :: l)
          | failed => failed
          end
      end
  end.

(** [NormalizingFlowDensity.__init__]: the list [self.transforms].
    [torch.zeros(self.dim)] comes first and raises for a negative size. *)
Definition NormalizingFlowDensity_init (dim flow_length : Z) (flow_type : string)
    : built (list (transform V J)) :=
  if (dim <? 0)%Z then TorchError RuntimeError
  else
    let range := seq 0 (Z.to_nat flow_length) in
    if String.eqb flow_type "radial_flow" then build_list (Radial dim) range
    else if String.eqb flow_type "iaf_flow"
    then build_list (affine_autoregressive dim) range
    else if String.eqb flow_type "planar_flow" then build_list (Planar dim) range
    else if String.eqb flow_type "orthogonal_flow"
    then build_list (λ k, Ok (OrthogonalTransform dim k)) range
    else NotImplementedError.

(** The flow types that the constructor names. *)
Definition known_flow_type (flow_type : string) : Prop :=
  flow_type = "radial_flow" ∨ flow_type = "iaf_flow" ∨
  flow_type = "planar_flow" ∨ flow_type = "orthogonal_flow".

(** [NormalizingFlowDensity.forward] *)
Fixpoint flow_loop (transforms : list (transform V J)) (z : V)
    (sum_log_jacobians : J) : V * J :=
  match transforms with
  | [] => (z, sum_log_jacobians)
  | transform :: transforms' =>
      let z_next := apply_transform transform z in
      let sum_log_jacobians :=
        jadd sum_log_jacobians (log_abs_det_jacobian transform z z_next) in
      flow_loop transforms' z_next sum_log_jacobians
  end.

Definition flow_forward (transforms : list (transform V J)) (z : V) : V * J :=
  flow_loop transforms z zero.

(** [NormalizingFlowDensity.log_prob] *)
Definition flow_log_prob (transforms : list (transform V J)) (x : V) : J :=
  let '(z, sum_log_jacobians) := flow_forward transforms x in
  let log_prob_z := normal_log_prob z in
  jadd log_prob_z sum_log_jacobians.

End Flow.

(** A flow on integers: every transform adds its place in the list plus
    one, the linear layer doubles, and a log-determinant is a number. *)
Module ToyFlow.

Definition shift (dim : Z) (k : nat) : transform Z Z := {|
  apply_transform := λ z, (z + Z.of_nat k + 1)%Z;
  log_abs_det_jacobian := λ z z_next, (z_next - z)%Z
|}.

Definition pyro : Pyro Z Z := {|
  Radial := λ dim k, Ok (shift dim k);
  affine_autoregressive := λ dim k, Ok (shift dim k);
  Planar := λ dim k, Ok (shift dim k);
  Linear := λ _ _ z, (2 * z)%Z;
  normal_log_prob := λ z, (- z)%Z;
  zero := 0%Z;
  one_float := 1%Z;
  jadd := Z.add
|}.

End ToyFlow.

(** * The data loaders and the training run

    [get_dataset] and [get_dataloader] of
    [uncertainty_est/data/dataloaders.py] and [run] of
    [uncertainty_est/train.py].  The datasets, the transforms of
    torchvision, the loader of torch and the trainer are collaborators:
    an object they build is the record of the call that builds it. *)

(** The exceptions of this part; [OtherError] stands for any further
    exception of a collaborator. *)
Inductive pyexc : Type :=
  | KeyError
  | ValueError
  | TypeError
  | TorchRuntimeError
  | PyIndexError
  | OtherError (n : nat).

Inductive attempt (A : Type) : Type :=
  | Done (a : A)
  | Failed (e : pyexc).
Arguments Done {A} a.
Arguments Failed {A} e.

(** A tensor of the given shape that [fill_] has filled with one value. *)
Record filled : Type := { shape : list Z; fill : Q }.

(** The keyword arguments of a dataset class after [DATA_ROOT]. *)
Inductive ds_args : Type :=
  | NoArgs
  | GaussianArgs (length : Z) (mean std : filled)
  | UniformArgs (length : Z) (low high : filled).

(** The transforms of [get_dataloader]; [Noise sigma] is
    [lambda x: x + sigma * torch.randn_like(x)]. *)
Inductive tvt : Type :=
  | Resize (size : Z)
  | CenterCrop (size : Z)
  | Pad (padding : Z)
  | RandomRotation (degrees : Z)
  | RandomHorizontalFlip
  | RandomCrop (size : Z)
  | ToTensor
  | Normalize
  | Noise (sigma : Q).

Inductive split_name : Type := Train | Val | Test.

(** [ds.train(t)], [ds.val(t)] and [ds.test(t)] of a dataset object [B],
    and [ConcatDataset(a, b)]. *)
Inductive dataset (B : Type) : Type :=
  | Split (base : B) (which : split_name) (transform : list tvt)
  | ConcatDataset (a b : dataset B).
Arguments Split {B} base which transform.
Arguments ConcatDataset {B} a b.

(** [DataLoader(ds, batch_size=..., pin_memory=True, num_workers=4,
    shuffle=..., drop_last=...)] *)
Record DataLoader (B : Type) : Type := {
  dl_dataset : dataset B;
  dl_batch_size : Z;
  dl_pin_memory : bool;
  dl_num_workers : Z;
  dl_shuffle : bool;
  dl_drop_last : bool
}.
Arguments dl_dataset {B} _.
Arguments dl_batch_size {B} _.
Arguments dl_pin_memory {B} _.
Arguments dl_num_workers {B} _.
Arguments dl_shuffle {B} _.
Arguments dl_drop_last {B} _.
Arguments Build_DataLoader {B} _ _ _ _ _ _.

(** The registry [DATASETS] of [uncertainty_eval.datasets], the call of a
    dataset class and the length of a split. *)
Class Datasets (C B : Type) := {
  DATASETS : gmap string C;
  construct : C → ds_args → attempt B;
  split_len : B → split_name → Z
}.

Definition positive_float (x : Q) : bool := negb (Qle_bool x (Qmake 0 1)).

Section Loaders.
Context {C B : Type} `{!Datasets C B}.

(** [get_dataset] *)
Definition get_dataset (dataset : string) (data_shape : list Z) (length : Z)
    : attempt B :=
  let image := (List.length data_shape =? 3)%nat in
  let tried :=
    match DATASETS !! dataset with
    | None => Failed KeyError
    | Some ds_class =>
        if String.eqb dataset "gaussian_noise" then
          let m := if image then Qmake 255 2 else Qmake 0 1 in
          let s := if image then Qmake 60 1 else Qmake 1 1 in
          if forallb (Z.leb 0) data_shape
          then construct ds_class
                 (GaussianArgs length (Build_filled data_shape m)
                    (Build_filled data_shape s))
          else Failed TorchRuntimeError
        else if String.eqb dataset "uniform_noise" then
          let l := if image then Qmake 0 1 else Qmake (-5) 1 in
          let h := if image then Qmake 255 1 else Qmake 5 1 in
          if forallb (Z.leb 0) data_shape
          then construct ds_class
                 (UniformArgs length (Build_filled data_shape l)
                    (Build_filled data_shape h))
          else Failed TorchRuntimeError
        else construct ds_class NoArgs
    end in
  match tried with
  | Failed KeyError => Failed ValueError
  | _ => tried
  end.

(** The two lists of transforms of [get_dataloader]. *)
Definition train_transforms (data_shape : list Z) (sigma : Q) : list tvt :=
  (if (List.length data_shape =? 3)%nat then
     let img_size := List.last data_shape 0%Z in
     [Resize img_size; CenterCrop img_size; Pad 4; RandomRotation 15;
      RandomHorizontalFlip; RandomCrop img_size; ToTensor; Normalize]
   else [])
  ++ (if positive_float sigma then [Noise sigma] else []).

Definition test_transforms (data_shape : list Z) (sigma : Q) : list tvt :=
  (if (List.length data_shape =? 3)%nat then
     let img_size := List.last data_shape 0%Z in
     [Resize img_size; CenterCrop img_size; ToTensor; Normalize]
   else [])
  ++ (if positive_float sigma then [Noise sigma] else []).

(** [get_dataloader] *)
Definition get_dataloader (dataset : string) (split : string) (batch_size : Z)
    (data_shape : list Z) (ood_dataset : option string) (sigma : Q)
    : attempt (DataLoader B) :=
  let train_transform := train_transforms data_shape sigma in
  let test_transform := test_transforms data_shape sigma in
  match get_dataset dataset data_shape 10000 with
  | Failed e => Failed e
  | Done ds =>
      let which :=
        if String.eqb split "train" then Train
        else if String.eqb split "val" then Val
        else Test in
      let ds :=
        Split ds which
          (if String.eqb split "train" then train_transform else test_transform) in
      let loader ds :=
        Build_DataLoader ds batch_size true 4
          (String.eqb split "train") (String.eqb split "train") in
      match ood_dataset with
      | None => Done (loader ds)
      | Some ood_dataset =>
          match ds with
          | Split base which' _ =>
              match get_dataset ood_dataset data_shape (split_len base which') with
              | Failed e => Failed e
              | Done ood_ds =>
                  let ood_train := Split ood_ds Train train_transform in
                  Done (loader (ConcatDataset ds ood_train))
              end
          | ConcatDataset _ _ => Done (loader ds)
          end
      end
  end.

End Loaders.

(** ** Calls with keyword arguments *)

(** Whether Python binds a call with [positional] positional and the
    given keyword arguments to a function with the parameters
    [signature], of which the first [required] have no default: every
    keyword names a parameter that no positional argument has taken, no
    keyword comes twice, and every required parameter gets a value. *)
Definition binds (signature : list string) (required positional : nat)
    (keywords : list string) : bool :=
  (positional <=? List.length signature)%nat
  && forallb (λ k, bool_decide (k ∈ drop positional signature)) keywords
  && bool_decide (NoDup keywords)
  && forallb (λ p, bool_decide (p ∈ take positional signature ++ keywords))
       (take required signature).

(** [def get_dataloader(dataset, split, batch_size=32, data_shape=(3, 32,
    32), ood_dataset=None, sigma=0.0)] *)
Definition get_dataloader_signature : list string :=
  ["dataset"; "split"; "batch_size"; "data_shape"; "ood_dataset"; "sigma"].

(** A call of [get_dataloader]: [TypeError] unless the arguments bind. *)
Definition call_get_dataloader {A : Type} (positional : nat)
    (keywords : list string) (body : attempt A) : attempt A :=
  if binds get_dataloader_signature 2 positional keywords then body
  else Failed TypeError.

(** ** [run] *)

(** What [run] does to the world outside. *)
Inductive event : Type :=
  | SeedEverything (seed : Z)
  | NewModel (model_name : string)
  | Mkdir
  | WriteConfig
  | NewTrainer
  | Fit
  | TestRun (ckpt_path_none : bool)
  | LogHyperparams.

(** The arguments of [run] that it reads itself. *)
Record run_args : Type := {
  arg_model_name : string;
  arg_dataset : string;
  arg_seed : Z;
  arg_batch_size : Z;
  arg_ood_dataset : option string;
  arg_earlystop : bool;
  arg_data_shape : list Z;
  arg_sigma : Q;
  arg_test_ood_datasets : list string
}.

(** The collaborators of [run]: the outcome of each call. [Mo] is a model,
    [Tr] a trainer, [Rs] a result of a test. *)
Class Trainer (B Mo Tr Rs : Type) := {
  seed_everything : Z → attempt unit;
  new_model : string → list (string * DataLoader B) → attempt Mo;
  mkdir : attempt unit;
  write_config : attempt unit;
  new_trainer : bool → attempt Tr;
  fit : Tr → Mo → DataLoader B → DataLoader B → attempt unit;
  test : Tr → DataLoader B → bool → attempt (list Rs);
  log_hyperparams : Mo → Rs → attempt unit
}.

Section Run.
Context {C B Mo Tr Rs : Type} `{!Datasets C B} `{!Trainer B Mo Tr Rs}.

Definition W (A : Type) : Type := list event → list event * attempt A.

#[global] Instance W_ret : MRet W := λ A a t, (t, Done a).
#[global] Instance W_bind : MBind W := λ A B k m t,
  match m t with
  | (t', Done a) => k a t'
  | (t', Failed e) => (t', Failed e)
  end.

(** A call that touches nothing outside, and one that does. *)
Definition quietly {A : Type} (a : attempt A) : W A := λ t, (t, a).
Definition emit {A : Type} (ev : event) (a : attempt A) : W A := λ t,
  (t ++ [ev], a).

(** [for test_ood_dataset in test_ood_datasets: ...] *)
Fixpoint ood_loaders (args : run_args) (names : list string)
    : W (list (string * DataLoader B)) :=
  match names with
  | [] => mret []
  | test_ood_dataset :: names' =>
      loader ← quietly
        (call_get_dataloader 3
           ["data_shape"; "sigma"; "ood_dataset"; "num_workers"]
           (get_dataloader test_ood_dataset "test" (arg_batch_size args)
              (arg_data_shape args) None (arg_sigma args)));
      rest ← ood_loaders args names';
      mret ((test_ood_dataset, loader) :: rest)
  end.

Definition run (args : run_args) : W Rs :=
  emit (SeedEverything (arg_seed args)) (seed_everything (arg_seed args));;
  test_ood_dataloaders ← ood_loaders args (arg_test_ood_datasets args);
  model ← emit (NewModel (arg_model_name args))
            (new_model (arg_model_name args) test_ood_dataloaders);
  train_loader ← quietly
    (call_get_dataloader 3
       ["data_shape"; "ood_dataset"; "sigma"; "num_workers"; "mutation_rate"]
       (get_dataloader (arg_dataset args) "train" (arg_batch_size args)
          (arg_data_shape args) (arg_ood_dataset args) (arg_sigma args)));
  val_loader ← quietly
    (call_get_dataloader 3
       ["data_shape"; "sigma"; "ood_dataset"; "num_workers"]
       (get_dataloader (arg_dataset args) "val" (arg_batch_size args)
          (arg_data_shape args) (arg_ood_dataset args) (arg_sigma args)));
  test_loader ← quietly
    (call_get_dataloader 3
       ["data_shape"; "sigma"; "ood_dataset"; "num_workers"]
       (get_dataloader (arg_dataset args) "test" (arg_batch_size args)
          (arg_data_shape args) None (arg_sigma args)));
  emit Mkdir mkdir;;
  emit WriteConfig write_config;;
  trainer ← emit NewTrainer (new_trainer (arg_earlystop args));
  emit Fit (fit trainer model train_loader val_loader);;
  result ← (λ t,
    match emit (TestRun false) (test trainer test_loader false) t with
    | (t', Failed _) => emit (TestRun true) (test trainer test_loader true) t'
    | done => done
    end);
  first ← quietly (match result with
                   | [] => Failed PyIndexError
                   | r :: _ => Done r
                   end);
  emit LogHyperparams (log_hyperparams model first);;
  mret first.

End Run.

(** The part of a loader's dataset that comes from the dataset asked
    for, the random transforms of torchvision, and the events of [run]
    before a loader is built. *)
Definition in_distribution {B : Type} (d : dataset B) : dataset B :=
  match d with
  | ConcatDataset a _ => a
  | Split _ _ _ => d
  end.

Definition random_augmentation (t : tvt) : bool :=
  match t with
  | RandomRotation _ | RandomHorizontalFlip | RandomCrop _ => true
  | _ => false
  end.

Definition before_loaders (ev : event) : bool :=
  match ev with
  | SeedEverything _ | NewModel _ => true
  | _ => false
  end.

(** A registry with the one dataset [digits], three events long. *)
Module ToyData.

Definition datasets : Datasets unit nat := {|
  DATASETS := {["digits" := tt]};
  construct := λ _ args,
    match args with
    | NoArgs => Done 0
    | GaussianArgs n _ _ => Done 1
    | UniformArgs n _ _ => Done 2
    end;
  split_len := λ _ _, 7%Z
|}.

Definition trainer : Trainer nat unit unit unit := {|
  seed_everything := λ _, Done tt;
  new_model := λ _ _, Done tt;
  mkdir := Done tt;
  write_config := Done tt;
  new_trainer := λ _, Done tt;
  fit := λ _ _ _ _, Done tt;
  test := λ _ _ _, Done [tt];
  log_hyperparams := λ _ _, Done tt
|}.

Definition args (test_ood_datasets : list string) : run_args := {|
  arg_model_name := "JEM";
  arg_dataset := "digits";
  arg_seed := 1;
  arg_batch_size := 32;
  arg_ood_dataset := None;
  arg_earlystop := false;
  arg_data_shape := [3; 32; 32]%Z;
  arg_sigma := Qmake 0 1;
  arg_test_ood_datasets := test_ood_datasets
|}.

End ToyData.

(** * Properties *)

Section Facts.
Context {F T P : Type} `{!Tensor F T} `{!Torch F T P}.

Abbreviation state := (state T P).
Abbreviation M := (@M T P).

(** ** Running a sequence of statements *)

Lemma bind_run {A B : Type} (m : M A) (k : A → M B) (s : state) :
  (m ≫= k) s =
  match m s with
  | (s', Ok a) => k a s'
  | (s', Raise e) => (s', Raise e)
  end.
Proof. reflexivity. Qed.

Lemma bind_ok {A B : Type} (m : M A) (k : A → M B) (s s' : state) (b : B) :
  (m ≫= k) s = (s', Ok b) →
  ∃ s1 a, m s = (s1, Ok a) ∧ k a s1 = (s', Ok b).
Proof.
  rewrite bind_run. destruct (m s) as [s1 [a|e]]; [eauto | discriminate].
Qed.

Lemma draws_only_ret {A : Type} (a : A) : draws_only (mret a : M A).
Proof. intros s s' r [= <- <-]. auto. Qed.

Lemma draws_only_lift {A : Type} (o : outcome A) : draws_only (lift o : M A).
Proof. intros s s' r [= <- <-]. auto. Qed.

Lemma draws_only_assert (b : bool) : draws_only (py_assert b : M unit).
Proof. apply draws_only_lift. Qed.

Lemma draws_only_bind {A B : Type} (m : M A) (k : A → M B) :
  draws_only m → (∀ a, draws_only (k a)) → draws_only (m ≫= k).
Proof.
  intros Hm Hk s s' r. rewrite bind_run.
  destruct (m s) as [s1 [a|e]] eqn:E; intros H.
  - destruct (Hm _ _ _ E) as (? & ? & ? & ?).
    destruct (Hk a _ _ _ H) as (? & ? & ? & ?).
    repeat split; try congruence. lia.
  - injection H as <- <-. exact (Hm _ _ _ E).
Qed.

Lemma draws_only_get_buffer : draws_only (get_buffer : M (list T)).
Proof. intros s s' r [= <- <-]. auto. Qed.

Lemma draws_only_randint (high bs : Z) : draws_only (torch_randint high bs).
Proof.
  intros s s' r. unfold torch_randint.
  destruct (_ || _); intros [= <- <-]; simpl; auto.
Qed.

Lemma draws_only_rand (bs : Z) : draws_only (torch_rand bs).
Proof.
  intros s s' r. unfold torch_rand.
  destruct (_ <? _)%Z; intros [= <- <-]; simpl; auto.
Qed.

Lemma draws_only_randn_like (x_k : list T) : draws_only (torch_randn_like x_k).
Proof. intros s s' r [= <- <-]; simpl; auto. Qed.

Lemma draws_only_init_random (bs : Z) : draws_only (init_random bs).
Proof.
  intros s s' r. unfold init_random.
  destruct (_ <? _)%Z; intros [= <- <-]; simpl; auto.
Qed.

Lemma draws_only_autograd (contrast : bool) (y : option (list Z)) (x_k : list T) :
  draws_only (autograd_energy contrast y x_k).
Proof. intros s s' r [= <- <-]. auto. Qed.

Create HintDb draws.

#[local] Hint Resolve draws_only_ret draws_only_lift draws_only_assert
  draws_only_get_buffer draws_only_randint draws_only_rand
  draws_only_randn_like draws_only_init_random draws_only_autograd
  : draws.

Ltac draws :=
  repeat first
    [ progress eauto with draws
    | apply draws_only_bind; [| intros ?]
    | match goal with
      | |- draws_only (if ?b then _ else _) => destruct b
      | |- draws_only (match ?o with _ => _ end) => destruct o
      end ].

Lemma draws_only_sample_p_0 (self : JEM F) (bs : Z) (y : option (list Z)) :
  draws_only (sample_p_0 self bs y).
Proof. unfold sample_p_0. draws. Qed.

Lemma draws_only_sgld (self : JEM F) (contrast : bool) (y : option (list Z))
    (n : nat) (x_k : list T) :
  draws_only (sgld self contrast y n x_k).
Proof.
  revert x_k. induction n as [|n IH]; intros x_k; simpl; draws.
Qed.

(** ** Slots and indexed reads and writes *)

Lemma slot_lt (len : nat) (i : Z) (k : nat) : slot len i = Some k → k < len.
Proof.
  unfold slot. destruct (_ && _) eqn:E; [|discriminate].
  intros [= <-]. apply andb_true_iff in E as [E1 E2].
  apply Z.leb_le in E1. apply Z.ltb_lt in E2.
  destruct (i <? 0)%Z eqn:E3; [apply Z.ltb_lt in E3 | apply Z.ltb_ge in E3]; lia.
Qed.

Lemma slot_nonneg (len : nat) (i : Z) :
  (0 ≤ i < Z.of_nat len)%Z → slot len i = Some (Z.to_nat i).
Proof.
  intros [H1 H2]. unfold slot.
  replace (- Z.of_nat len <=? i)%Z with true by (symmetry; apply Z.leb_le; lia).
  replace (i <? Z.of_nat len)%Z with true by (symmetry; apply Z.ltb_lt; lia).
  replace (i <? 0)%Z with false by (symmetry; apply Z.ltb_ge; lia).
  reflexivity.
Qed.

Lemma index_get_length (buf : list T) (inds : list Z) (vs : list T) :
  index_get buf inds = Ok vs → length vs = length inds.
Proof.
  revert vs. induction inds as [|i inds IH]; intros vs; simpl.
  - intros [= <-]. reflexivity.
  - destruct (slot (length buf) i ≫= _); [|discriminate].
    destruct (index_get buf inds); [|discriminate].
    intros [= <-]. simpl. f_equal. auto.
Qed.

Lemma index_get_valid (buf : list T) (inds : list Z) (vs : list T) :
  index_get buf inds = Ok vs →
  Forall (λ i, is_Some (slot (length buf) i)) inds.
Proof.
  revert vs. induction inds as [|i inds IH]; intros vs; simpl; [constructor|].
  destruct (slot (length buf) i) as [k|] eqn:E; simpl; [|discriminate].
  destruct (buf !! k); [|discriminate].
  destruct (index_get buf inds) eqn:E'; [|discriminate].
  intros _. constructor; eauto.
Qed.

(** Reading row by row. *)
Lemma index_get_rows (buf : list T) (inds : list Z) (vs : list T) :
  length vs = length inds →
  (∀ k i, inds !! k = Some i → slot (length buf) i ≫= (buf !!.) = vs !! k) →
  index_get buf inds = Ok vs.
Proof.
  revert vs. induction inds as [|i inds IH]; intros [|v vs] Hlen Hrows;
    simpl in *; try discriminate; [reflexivity|].
  rewrite (Hrows 0 i eq_refl). simpl.
  rewrite (IH vs); [reflexivity | lia |].
  intros k j Hk. apply (Hrows (S k) j Hk).
Qed.

Lemma index_put_length (inds : list Z) (vals buf buf' : list T) :
  index_put buf inds vals = Ok buf' → length buf' = length buf.
Proof.
  revert vals buf. induction inds as [|i inds IH]; intros [|v vals] buf;
    simpl; try discriminate.
  - intros [= <-]. reflexivity.
  - destruct (slot (length buf) i) as [k|]; [|discriminate].
    intros H. apply IH in H. rewrite H. apply length_insert.
Qed.

(** A write after a read of the same indices, with one row per index,
    raises nothing. *)
Lemma index_put_valid (inds : list Z) (vals buf : list T) :
  Forall (λ i, is_Some (slot (length buf) i)) inds →
  length vals = length inds →
  ∃ buf', index_put buf inds vals = Ok buf'.
Proof.
  revert vals buf. induction inds as [|i inds IH]; intros [|v vals] buf Hv Hlen;
    simpl in *; try discriminate; [eauto|].
  inversion Hv as [|? ? [k Hk] Hv']; subst. rewrite Hk.
  apply IH; [|lia]. rewrite length_insert. exact Hv'.
Qed.

Lemma index_put_after_get (buf : list T) (inds : list Z) (vs vals : list T) :
  index_get buf inds = Ok vs → length vals = length inds →
  ∃ buf', index_put buf inds vals = Ok buf'.
Proof.
  intros Hget Hlen. apply index_put_valid; [|exact Hlen].
  exact (index_get_valid _ _ _ Hget).
Qed.

(** The write touches the drawn slots only. *)
Lemma index_put_other (inds : list Z) (vals buf buf' : list T) (j : nat) :
  index_put buf inds vals = Ok buf' →
  (∀ i, i ∈ inds → slot (length buf) i ≠ Some j) →
  buf' !! j = buf !! j.
Proof.
  revert vals buf. induction inds as [|i inds IH]; intros [|v vals] buf;
    simpl; try discriminate.
  - intros [= <-] _. reflexivity.
  - destruct (slot (length buf) i) as [k|] eqn:E; [|discriminate].
    intros H Hfree. rewrite (IH _ _ H).
    + apply list_lookup_insert_ne. intros ->.
      apply (Hfree i); [left | exact E].
    + intros i' Hi'. rewrite length_insert. apply Hfree. right. exact Hi'.
Qed.

(** Of the rows stored at one slot the last one stays. *)
Lemma index_put_last (inds : list Z) (vals buf buf' : list T)
    (k : nat) (i : Z) (v : T) (j : nat) :
  index_put buf inds vals = Ok buf' →
  inds !! k = Some i → vals !! k = Some v →
  slot (length buf) i = Some j →
  (∀ k' i', k < k' → inds !! k' = Some i' → slot (length buf) i' ≠ Some j) →
  buf' !! j = Some v.
Proof.
  revert vals buf k. induction inds as [|i0 inds IH]; intros [|v0 vals] buf k;
    simpl; try discriminate.
  destruct (slot (length buf) i0) as [k0|] eqn:E; [|discriminate].
  intros H Hi Hv Hs Hlater. destruct k as [|k]; simpl in *.
  - injection Hi as ->. injection Hv as ->.
    rewrite E in Hs. injection Hs as ->.
    rewrite (index_put_other _ _ _ _ j H).
    + apply list_lookup_insert_eq. exact (slot_lt _ _ _ E).
    + intros i' Hi'. rewrite length_insert.
      apply list_elem_of_lookup in Hi' as [k' Hk'].
      apply (Hlater (S k') i'); [lia | exact Hk'].
  - apply (IH _ _ k H Hi Hv).
    + rewrite length_insert. exact Hs.
    + intros k' i' Hlt Hk'. rewrite length_insert.
      apply (Hlater (S k') i'); [lia | exact Hk'].
Qed.

(** ** Sizes of broadcast results *)

Lemma bcast_length {A B C : Type} (f : A → B → C) (l1 : list A) (l2 : list B)
    (l : list C) :
  bcast f l1 l2 = Ok l →
  (length l1 = length l2 ∧ length l = length l2) ∨
  (length l1 = 1 ∧ length l = length l2) ∨
  (length l2 = 1 ∧ length l = length l1).
Proof.
  unfold bcast. destruct (length l1 =? length l2) eqn:E.
  - intros [= <-]. apply Nat.eqb_eq in E. left. split; [exact E|].
    rewrite length_zip_with. lia.
  - destruct l1 as [|a [|a' l1]]; destruct l2 as [|b [|b' l2]];
      try discriminate; intros [= <-]; simpl;
      rewrite ?length_map; simpl; auto.
Qed.

Lemma bcast_same {A B C : Type} (f : A → B → C) (l1 : list A) (l2 : list B) :
  length l1 = length l2 → bcast f l1 l2 = Ok (zip_with f l1 l2).
Proof. intros E. unfold bcast. apply Nat.eqb_eq in E. rewrite E. reflexivity. Qed.

Lemma rows_length {A : Type} (bs : Z) (f : nat → A) :
  length (rows bs f) = Z.to_nat bs.
Proof. unfold rows. rewrite length_map, length_seq. reflexivity. Qed.

Lemma sgld_update_length (self : JEM F) (x_k : list T) (f_prime noise : nat → T) :
  length (sgld_update self x_k f_prime noise) = length x_k.
Proof. unfold sgld_update. apply length_imap. Qed.

Lemma sgld_length (self : JEM F) (contrast : bool) (y : option (list Z))
    (n : nat) (x_k x : list T) (s s' : state) :
  sgld self contrast y n x_k s = (s', Ok x) → length x = length x_k.
Proof.
  revert x_k s. induction n as [|n IH]; intros x_k s; simpl.
  - intros [= <- <-]. reflexivity.
  - intros H. apply bind_ok in H as (s1 & g & _ & H).
    apply bind_ok in H as (s2 & nz & _ & H).
    apply IH in H. rewrite H. apply sgld_update_length.
Qed.

(** ** What [sample_p_0] returns *)

Tactic Notation "inv_bind" hyp(H) "as" ident(s1) ident(a) ident(H1) :=
  apply bind_ok in H as (s1 & a & H1 & H).

Lemma sample_p_0_empty (self : JEM F) (bs : Z) (y : option (list Z)) (s : state) :
  replay_buffer s = [] →
  sample_p_0 self bs y s =
  (init_random bs ≫= λ samples, mret (samples, [])) s.
Proof.
  intros E. unfold sample_p_0. rewrite bind_run. simpl. rewrite E. reflexivity.
Qed.

Lemma sample_p_0_inv (self : JEM F) (bs : Z) (y : option (list Z))
    (s s' : state) (samples : list T) (inds : list Z) :
  replay_buffer s ≠ [] →
  sample_p_0 self bs y s = (s', Ok (samples, inds)) →
  let bsz := block_size self y s in
  let drawn := rows bs (λ i, randint_raw (rng s) i mod bsz)%Z in
  (0 < bsz)%Z ∧ (0 ≤ bs)%Z ∧
  match y with
  | None => inds = drawn
  | Some y =>
      n_classes self ≠ 0%Z ∧ uncond self = false ∧
      bcast (λ l i, wrap64 (wrap64 (l * bsz) + i)) y drawn = Ok inds
  end ∧
  (∃ vs, index_get (replay_buffer s) inds = Ok vs) ∧
  length samples = length inds.
Proof.
  intros Hne H. unfold sample_p_0 in H. rewrite bind_run in H. simpl in H.
  destruct (length (replay_buffer s) =? 0) eqn:E.
  { apply Nat.eqb_eq in E. destruct (replay_buffer s); [done | discriminate]. }
  clear E. inv_bind H as s1 bsz Hbsz.
  assert (s1 = s ∧ bsz = block_size self y s ∧
          match y with None => True | Some _ => n_classes self ≠ 0%Z end)
    as (-> & -> & Hn).
  { unfold lift, block_size in *. destruct y as [y|].
    - unfold py_floordiv in Hbsz. destruct (n_classes self =? 0)%Z eqn:E;
        [discriminate|]. apply Z.eqb_neq in E. by injection Hbsz as <- <-.
    - by injection Hbsz as <- <-. }
  clear Hbsz. inv_bind H as s1 drawn Hdraw. unfold torch_randint in Hdraw.
  destruct ((block_size self y s <=? 0)%Z || (bs <? 0)%Z) eqn:E; [discriminate|].
  apply orb_false_iff in E as [E1 E2].
  apply Z.leb_gt in E1. apply Z.ltb_ge in E2.
  injection Hdraw as <- <-.
  inv_bind H as s2 inds' Hinds'.
  assert (s2 = tick s ∧
          match y with
          | None => inds' = rows bs (λ i, randint_raw (rng s) i mod block_size self y s)%Z
          | Some y' => uncond self = false ∧
              bcast (λ l i, wrap64 (wrap64 (l * block_size self y s) + i)) y'
                (rows bs (λ i, randint_raw (rng s) i mod block_size self y s)%Z)
              = Ok inds'
          end) as (-> & Hinds).
  { destruct y as [y|].
    - inv_bind Hinds' as s3 i3 Hb. injection Hb as <- Hb.
      inv_bind Hinds' as s4 u4 Ha.
      unfold py_assert, lift in Ha. destruct (uncond self); [discriminate|].
      injection Ha as <-. by injection Hinds' as <- <-.
    - by injection Hinds' as <- <-. }
  clear Hinds'. inv_bind H as s3 buffer_samples Hget. injection Hget as <- Hget.
  inv_bind H as s4 random_samples Hr. unfold init_random in Hr.
  destruct (bs <? 0)%Z; [discriminate|]. injection Hr as <- <-.
  inv_bind H as s5 u Hu. unfold torch_rand in Hu.
  destruct (bs <? 0)%Z; [discriminate|]. injection Hu as <- <-.
  inv_bind H as s6 a Ha. injection Ha as <- Ha.
  inv_bind H as s7 b Hb. injection Hb as <- Hb.
  inv_bind H as s8 sm Hs. injection Hs as <- Hs.
  injection H as _ <- <-.
  split; [exact E1|]. split; [exact E2|].
  split; [destruct y; tauto|].
  split; [eauto|].
  apply index_get_length in Hget.
  apply bcast_length in Ha, Hb, Hs.
  rewrite ?length_map, ?rows_length in *.
  assert (length inds' = Z.to_nat bs ∨ Z.to_nat bs = 1) as HL.
  { destruct y as [y|].
    - destruct Hinds as [_ Hinds]. apply bcast_length in Hinds.
      rewrite rows_length in Hinds. lia.
    - subst inds'. rewrite rows_length. auto. }
  lia.
Qed.

(** ** [sample_q], statement by statement *)

Lemma sample_q_run (self : JEM F) (y : option (list Z)) (n_steps : Z)
    (contrast : bool) (s : state) :
  sample_q self y n_steps contrast s =
  match sample_p_0 self (batch_size self y) y (set_training false s) with
  | (s1, Raise e) => (s1, Raise e)
  | (s1, Ok (init_sample, buffer_inds)) =>
      match sgld self contrast y (Z.to_nat n_steps) init_sample s1 with
      | (s2, Raise e) => (s2, Raise e)
      | (s2, Ok final_samples) =>
          if 0 <? length (replay_buffer s2)
          then match index_put (replay_buffer s2) buffer_inds final_samples with
               | Ok buf => (set_buffer buf (set_training true s2), Ok final_samples)
               | Raise e => (set_training true s2, Raise e)
               end
          else (set_training true s2, Ok final_samples)
      end
  end.
Proof.
  unfold sample_q. rewrite bind_run. simpl.
  fold (batch_size self y). rewrite bind_run.
  destruct (sample_p_0 _ _ _ _) as [s1 [[init_sample buffer_inds]|e]];
    [|reflexivity].
  rewrite bind_run.
  destruct (sgld _ _ _ _ _ _) as [s2 [final_samples|e]]; [|reflexivity].
  do 3 (rewrite bind_run; simpl).
  destruct (0 <? length (replay_buffer s2)); [|reflexivity].
  unfold index_assign. simpl.
  destruct (index_put _ _ _); reflexivity.
Qed.

(** The write-back of [sample_q] raises nothing: the final batch has one
    row per drawn index, and the indices have been read before. *)
Lemma sample_q_write (self : JEM F) (y : option (list Z)) (bs : Z) (n : nat)
    (contrast : bool) (s s1 s2 : state) (init final : list T) (inds : list Z) :
  replay_buffer s ≠ [] →
  sample_p_0 self bs y s = (s1, Ok (init, inds)) →
  sgld self contrast y n init s1 = (s2, Ok final) →
  replay_buffer s2 = replay_buffer s ∧ length final = length inds ∧
  ∃ buf, index_put (replay_buffer s) inds final = Ok buf.
Proof.
  intros Hne Hp Hl.
  destruct (sample_p_0_inv _ _ _ _ _ _ _ Hne Hp) as (_ & _ & _ & [vs Hget] & Hlen).
  destruct (draws_only_sample_p_0 _ _ _ _ _ _ Hp) as (_ & _ & Hb1 & _).
  destruct (draws_only_sgld _ _ _ _ _ _ _ _ Hl) as (_ & _ & Hb2 & _).
  pose proof (sgld_length _ _ _ _ _ _ _ _ Hl) as Hlen'.
  split; [congruence|]. split; [congruence|].
  apply (index_put_after_get _ _ vs); [exact Hget | congruence].
Qed.

(** ** Class-conditional slot indices *)

Lemma wrap64_small (z : Z) : (- 2 ^ 63 ≤ z < 2 ^ 63)%Z → wrap64 z = z.
Proof. intros H. unfold wrap64. rewrite Z.mod_small; lia. Qed.

Lemma rows_lookup {A : Type} (bs : Z) (f : nat → A) (k : nat) (a : A) :
  rows bs f !! k = Some a → a = f k.
Proof.
  unfold rows. change (map f (seq 0 (Z.to_nat bs))) with (f <$> seq 0 (Z.to_nat bs)).
  rewrite list_lookup_fmap. destruct (seq 0 (Z.to_nat bs) !! k) as [j|] eqn:E;
    [|discriminate].
  apply lookup_seq in E as [-> _]. simpl. congruence.
Qed.

(** An index built from a class label [l] and a draw [r] below the block
    size lies in block [l]. *)
Lemma class_index_block (cap n l r : Z) :
  (cap < 2 ^ 63)%Z → (0 ≤ l < n)%Z → (0 ≤ r < cap / n)%Z →
  (wrap64 (wrap64 (l * (cap / n)) + r) / (cap / n) = l)%Z.
Proof.
  intros Hcap Hl Hr.
  assert (n * (cap / n) ≤ cap)%Z by (apply Z.mul_div_le; lia).
  assert (0 ≤ l * (cap / n) ≤ (n - 1) * (cap / n))%Z by nia.
  rewrite (wrap64_small (l * (cap / n))) by lia.
  rewrite wrap64_small by lia.
  rewrite Z.div_add_l by lia. rewrite Z.div_small by lia. lia.
Qed.

(** C1.  When [sample_p_0] is called on a buffer that is not empty with a
    batch [y] of [bs] class labels and returns, the slot index it returns
    for each label [l] lies in the block of that label: the index divided
    (floor division) by the block size, capacity [//] class count, is [l]. *)
Theorem sample_p_0_class_block (self : JEM F) (bs : Z) (y : list Z)
    (s s' : state) (samples : list T) (inds : list Z) :
  replay_buffer s ≠ [] →
  (Z.of_nat (length (replay_buffer s)) < 2 ^ 63)%Z →
  Forall (λ l, 0 ≤ l < n_classes self)%Z y →
  bs = Z.of_nat (length y) →
  sample_p_0 self bs (Some y) s = (s', Ok (samples, inds)) →
  Forall2 (λ i l,
             (i / (Z.of_nat (length (replay_buffer s)) / n_classes self))%Z = l)
          inds y.
Proof.
  intros Hne Hcap Hy Hbs H.
  destruct (sample_p_0_inv _ _ _ _ _ _ _ Hne H) as (Hpos & _ & (_ & _ & Hb) & _).
  simpl in Hpos, Hb.
  set (bsz := (Z.of_nat (length (replay_buffer s)) / n_classes self)%Z) in *.
  rewrite bcast_same in Hb by (rewrite rows_length; lia).
  injection Hb as <-.
  apply Forall2_same_length_lookup_2.
  { rewrite length_zip_with, rows_length. lia. }
  intros k i l Hi Hl.
  apply lookup_zip_with_Some in Hi as (l' & r & -> & Hl' & Hr).
  assert (l' = l) as -> by congruence.
  apply rows_lookup in Hr. subst r.
  rewrite Forall_lookup in Hy. specialize (Hy _ _ Hl).
  apply class_index_block; [exact Hcap | exact Hy |].
  apply Z.mod_pos_bound. exact Hpos.
Qed.

(** ** The exits of [sample_q] *)

(** A normal return: the initial batch was drawn, the loop ended, and the
    final batch was stored at the drawn slots of a buffer that is not
    empty. *)
Lemma sample_q_ok (self : JEM F) (y : option (list Z)) (n_steps : Z)
    (contrast : bool) (s s1 s2 : state) (init final : list T) (inds : list Z) :
  sample_p_0 self (batch_size self y) y (set_training false s)
    = (s1, Ok (init, inds)) →
  sgld self contrast y (Z.to_nat n_steps) init s1 = (s2, Ok final) →
  ∃ s', sample_q self y n_steps contrast s = (s', Ok final) ∧
        training s' = true ∧ params s' = params s ∧ rng s' = rng s2 ∧
        match replay_buffer s with
        | [] => replay_buffer s' = []
        | _ :: _ => index_put (replay_buffer s) inds final = Ok (replay_buffer s')
        end.
Proof.
  intros Hp Hl. rewrite sample_q_run, Hp, Hl.
  destruct (draws_only_sample_p_0 _ _ _ _ _ _ Hp) as (_ & Hp1 & Hb1 & _).
  destruct (draws_only_sgld _ _ _ _ _ _ _ _ Hl) as (_ & Hp2 & Hb2 & _).
  simpl in Hp1, Hb1.
  destruct (replay_buffer s) as [|v buf] eqn:E.
  - rewrite Hb2, Hb1. simpl. eexists. split; [reflexivity|]. simpl.
    repeat split; congruence.
  - assert (replay_buffer (set_training false s) ≠ []) as Hne
      by (simpl; rewrite E; discriminate).
    destruct (sample_q_write _ _ _ _ _ _ _ _ _ _ _ Hne Hp Hl) as (Hb & _ & buf' & Hw).
    simpl in Hb, Hw. rewrite Hb, Hw, E. simpl. rewrite <- E, Hw.
    eexists. split; [reflexivity|]. simpl. repeat split; congruence.
Qed.

Lemma sample_q_ok_inv (self : JEM F) (y : option (list Z)) (n_steps : Z)
    (contrast : bool) (s s' : state) (final : list T) :
  sample_q self y n_steps contrast s = (s', Ok final) →
  ∃ s1 s2 init inds,
    sample_p_0 self (batch_size self y) y (set_training false s)
      = (s1, Ok (init, inds)) ∧
    sgld self contrast y (Z.to_nat n_steps) init s1 = (s2, Ok final).
Proof.
  rewrite sample_q_run.
  destruct (sample_p_0 _ _ _ _) as [s1 [[init inds]|e]]; [|discriminate].
  destruct (sgld _ _ _ _ _ _) as [s2 [x|e]] eqn:E; [|discriminate].
  intros H. exists s1, s2, init, inds. split; [reflexivity|].
  destruct (0 <? _); [destruct (index_put _ _ _)|]; congruence.
Qed.

(** An exit by an exception: it was raised by [sample_p_0] or inside the
    loop, before [self.model.train()] and before the write-back. *)
Lemma sample_q_raise_inv (self : JEM F) (y : option (list Z)) (n_steps : Z)
    (contrast : bool) (s s' : state) (e : exn) :
  sample_q self y n_steps contrast s = (s', Raise e) →
  sample_p_0 self (batch_size self y) y (set_training false s) = (s', Raise e) ∨
  ∃ s1 init inds,
    sample_p_0 self (batch_size self y) y (set_training false s)
      = (s1, Ok (init, inds)) ∧
    sgld self contrast y (Z.to_nat n_steps) init s1 = (s', Raise e).
Proof.
  intros H.
  destruct (sample_p_0 self (batch_size self y) y (set_training false s))
    as [s1 [[init inds]|e1]] eqn:Hp.
  2: { rewrite sample_q_run, Hp in H. left. by injection H as <- <-. }
  destruct (sgld self contrast y (Z.to_nat n_steps) init s1)
    as [s2 [x|e2]] eqn:Hl.
  - destruct (sample_q_ok _ _ _ _ _ _ _ _ _ _ Hp Hl) as (s'' & Hq & _). congruence.
  - rewrite sample_q_run, Hp, Hl in H. right. exists s1, init, inds.
    by injection H as <- <-.
Qed.

(** The mode of the network after the call tells how the call ended. *)
Lemma sample_q_training (self : JEM F) (y : option (list Z)) (n_steps : Z)
    (contrast : bool) (s s' : state) (r : outcome (list T)) :
  sample_q self y n_steps contrast s = (s', r) → training s' = is_ok r.
Proof.
  intros H. destruct r as [final|e].
  - destruct (sample_q_ok_inv _ _ _ _ _ _ _ H) as (s1 & s2 & init & inds & Hp & Hl).
    destruct (sample_q_ok _ _ _ _ _ _ _ _ _ _ Hp Hl) as (s'' & Hq & Ht & _).
    simpl. congruence.
  - destruct (sample_q_raise_inv _ _ _ _ _ _ _ H) as [Hp | (s1 & init & inds & Hp & Hl)].
    + destruct (draws_only_sample_p_0 _ _ _ _ _ _ Hp) as (Ht & _). exact Ht.
    + destruct (draws_only_sample_p_0 _ _ _ _ _ _ Hp) as (Ht1 & _).
      destruct (draws_only_sgld _ _ _ _ _ _ _ _ Hl) as (Ht2 & _).
      simpl in *. congruence.
Qed.

Lemma sample_q_raise_buffer (self : JEM F) (y : option (list Z)) (n_steps : Z)
    (contrast : bool) (s s' : state) (e : exn) :
  sample_q self y n_steps contrast s = (s', Raise e) →
  replay_buffer s' = replay_buffer s.
Proof.
  intros H.
  destruct (sample_q_raise_inv _ _ _ _ _ _ _ H) as [Hp | (s1 & init & inds & Hp & Hl)].
  - destruct (draws_only_sample_p_0 _ _ _ _ _ _ Hp) as (_ & _ & Hb & _). exact Hb.
  - destruct (draws_only_sample_p_0 _ _ _ _ _ _ Hp) as (_ & _ & Hb1 & _).
    destruct (draws_only_sgld _ _ _ _ _ _ _ _ Hl) as (_ & _ & Hb2 & _).
    simpl in *. congruence.
Qed.

(** ** The loop and the sampler of the specification *)

Lemma langevin_raise (score_grad : list T → outcome (nat → T))
    (noise : nat → nat → T) (eta sigma : F) (K g : nat) (positions : list T)
    (e : exn) :
  langevin score_grad noise eta sigma K g positions = Raise e →
  ∃ x, score_grad x = Raise e.
Proof.
  revert g positions. induction K as [|K IH]; intros g positions; simpl;
    [discriminate|].
  destruct (score_grad positions) as [gradient|e'] eqn:E.
  - apply IH.
  - intros [= <-]. eauto.
Qed.

(** The loop is the sampler of the specification, run with the gradient
    that [contrast] selects and the noise of the draws [rng s],
    [rng s + 1], ...; it changes nothing but the generator, which a loop
    that ends has advanced by the number of steps. *)
Lemma sgld_langevin (self : JEM F) (contrast : bool) (y : option (list Z))
    (n : nat) (x_k : list T) (s : state) :
  ∃ s',
    sgld self contrast y n x_k s =
      (s', langevin (energy_gradient contrast (training s) (params s) y)
             randn_draw (sgld_lr self) (sgld_std self) n (rng s) x_k) ∧
    (is_ok (langevin (energy_gradient contrast (training s) (params s) y)
              randn_draw (sgld_lr self) (sgld_std self) n (rng s) x_k) = true →
     rng s' = rng s + n).
Proof.
  revert x_k s. induction n as [|n IH]; intros x_k s.
  - exists s. split; [reflexivity | simpl; lia].
  - cbn [sgld langevin]. rewrite bind_run. unfold autograd_energy.
    change (if negb contrast
            then grad_score_sum (training s) (params s) x_k y
            else grad_contrast (training s) (params s) x_k y)
      with (energy_gradient contrast (training s) (params s) y x_k).
    destruct (energy_gradient contrast (training s) (params s) y x_k)
      as [f_prime|e].
    + rewrite bind_run. cbn [torch_randn_like].
      destruct (IH (sgld_update self x_k f_prime (randn_draw (rng s))) (tick s))
        as (s' & Hl & Hr).
      exists s'. split; [exact Hl|].
      intros Hok. simpl in Hr. rewrite (Hr Hok). lia.
    + exists s. split; [reflexivity | discriminate].
Qed.

(** C2, amended.  When the initial batch has been drawn, the call of
    [sample_q] returns what [n_steps] update steps of the sampler make of
    it: each step adds to every position the step size times the gradient
    plus the noise scale times a noise tensor that is drawn for this step
    alone, and the gradient is taken by the network in evaluation mode with
    the parameters of before the call, which the call leaves as they are.
    The gradient is that of the summed score when [contrast] is false, and
    that of the negated cross-entropy when [contrast] is true. *)
Theorem sample_q_langevin (self : JEM F) (y : option (list Z)) (n_steps : Z)
    (contrast : bool) (s s1 : state) (init : list T) (inds : list Z) :
  sample_p_0 self (batch_size self y) y (set_training false s)
    = (s1, Ok (init, inds)) →
  snd (sample_q self y n_steps contrast s) =
    langevin (energy_gradient contrast false (params s) y) randn_draw
      (sgld_lr self) (sgld_std self) (Z.to_nat n_steps) (rng s1) init ∧
  params (fst (sample_q self y n_steps contrast s)) = params s.
Proof.
  intros Hp.
  destruct (draws_only_sample_p_0 _ _ _ _ _ _ Hp) as (Ht & Hpar & _).
  simpl in Ht, Hpar.
  destruct (sgld_langevin self contrast y (Z.to_nat n_steps) init s1)
    as (s2 & Hl & _).
  rewrite Ht, Hpar in Hl.
  destruct (langevin _ _ _ _ _ _ _) as [final|e].
  - destruct (sample_q_ok _ _ n_steps _ _ _ _ _ _ _ Hp Hl) as (s' & Hq & _ & Hpar' & _).
    rewrite Hq. auto.
  - rewrite sample_q_run, Hp, Hl. simpl. split; [reflexivity|].
    destruct (draws_only_sgld _ _ _ _ _ _ _ _ Hl) as (_ & Hpar' & _). congruence.
Qed.

(** ** The buffer after the call *)

(** C3, amended.  After a call of [sample_q] on a buffer that is not empty
    has returned, reading the buffer at a drawn slot index yields the row
    of the returned batch at the position of that index, for every index
    whose slot no other position has drawn; and when no slot has been drawn
    twice, reading the buffer at the drawn indices yields the returned
    batch. *)
Theorem sample_q_read_back (self : JEM F) (y : option (list Z)) (n_steps : Z)
    (contrast : bool) (s s1 s' : state) (init final : list T) (inds : list Z) :
  replay_buffer s ≠ [] →
  sample_p_0 self (batch_size self y) y (set_training false s)
    = (s1, Ok (init, inds)) →
  sample_q self y n_steps contrast s = (s', Ok final) →
  (∀ k i, inds !! k = Some i →
     (∀ k' i', k' ≠ k → inds !! k' = Some i' →
        slot (length (replay_buffer s)) i' ≠ slot (length (replay_buffer s)) i) →
     slot (length (replay_buffer s')) i ≫= (replay_buffer s' !!.) = final !! k) ∧
  ((∀ k k' i i', k ≠ k' → inds !! k = Some i → inds !! k' = Some i' →
      slot (length (replay_buffer s)) i ≠ slot (length (replay_buffer s)) i') →
   index_get (replay_buffer s') inds = Ok final).
Proof.
  intros Hne Hp Hq.
  destruct (sample_q_ok_inv _ _ _ _ _ _ _ Hq) as (s1' & s2 & init' & inds' & Hp' & Hl).
  rewrite Hp in Hp'. injection Hp' as <- <- <-.
  destruct (sample_q_ok _ _ _ _ _ _ _ _ _ _ Hp Hl) as (s'' & Hq' & _ & _ & _ & Hw).
  rewrite Hq in Hq'. injection Hq' as <-.
  assert (replay_buffer (set_training false s) ≠ []) as Hne' by exact Hne.
  destruct (sample_q_write _ _ _ _ _ _ _ _ _ _ _ Hne' Hp Hl) as (_ & Hlen & _).
  destruct (sample_p_0_inv _ _ _ _ _ _ _ Hne' Hp) as (_ & _ & _ & [vs Hget] & _).
  apply index_get_valid in Hget. simpl in Hget.
  destruct (replay_buffer s) as [|v0 buf0] eqn:E; [done|]. rewrite <- E in *.
  pose proof (index_put_length _ _ _ _ Hw) as Hlen'.
  assert (∀ k i, inds !! k = Some i →
     (∀ k' i', k' ≠ k → inds !! k' = Some i' →
        slot (length (replay_buffer s)) i' ≠ slot (length (replay_buffer s)) i) →
     slot (length (replay_buffer s')) i ≫= (replay_buffer s' !!.) = final !! k)
    as Hrow.
  { intros k i Hi Hother. rewrite Hlen'.
    rewrite Forall_lookup in Hget. destruct (Hget _ _ Hi) as [j Hj].
    destruct (lookup_lt_is_Some_2 final k) as [v Hv].
    { rewrite Hlen. apply lookup_lt_is_Some_1. eauto. }
    rewrite Hj, Hv. simpl.
    apply (index_put_last _ _ _ _ k i v j Hw Hi Hv Hj).
    intros k' i' Hlt Hi'. rewrite <- Hj. apply (Hother k' i'); [lia | exact Hi']. }
  split; [exact Hrow|].
  intros Hdistinct. apply index_get_rows; [exact Hlen|].
  intros k i Hi. apply Hrow; [exact Hi|].
  intros k' i' Hk Hi'. apply (Hdistinct k' k); auto.
Qed.

Lemma sample_q_buffer (self : JEM F) (y : option (list Z)) (n_steps : Z)
    (contrast : bool) (s s' : state) (r : outcome (list T)) :
  sample_q self y n_steps contrast s = (s', r) →
  length (replay_buffer s') = length (replay_buffer s) ∧
  ∀ s1 init inds,
    sample_p_0 self (batch_size self y) y (set_training false s)
      = (s1, Ok (init, inds)) →
    ∀ j, (∀ i, i ∈ inds → slot (length (replay_buffer s)) i ≠ Some j) →
         replay_buffer s' !! j = replay_buffer s !! j.
Proof.
  intros Hq. destruct r as [final|e].
  - destruct (sample_q_ok_inv _ _ _ _ _ _ _ Hq) as (s1 & s2 & init & inds & Hp & Hl).
    destruct (sample_q_ok _ _ _ _ _ _ _ _ _ _ Hp Hl) as (s'' & Hq' & _ & _ & _ & Hw).
    rewrite Hq in Hq'. injection Hq' as <-.
    destruct (replay_buffer s) as [|v0 buf0] eqn:E.
    + rewrite Hw. split; [reflexivity|]. reflexivity.
    + rewrite <- E in *. split; [exact (index_put_length _ _ _ _ Hw)|].
      intros s1' init' inds' Hp'. rewrite Hp in Hp'. injection Hp' as <- <- <-.
      intros j Hj. exact (index_put_other _ _ _ _ _ Hw Hj).
  - rewrite (sample_q_raise_buffer _ _ _ _ _ _ _ Hq). auto.
Qed.

(** C10.  A call of [sample_q] leaves the capacity of the buffer as it is,
    and every slot that is not the slot of a drawn index holds after the
    call what it held before.  (Every slot holds a tensor of the one shape
    [data_shape], the type [T], before and after.) *)
Theorem sample_q_frame (self : JEM F) (y : option (list Z)) (n_steps : Z)
    (contrast : bool) (s s' s1 : state) (r : outcome (list T))
    (init : list T) (inds : list Z) (j : nat) :
  sample_q self y n_steps contrast s = (s', r) →
  sample_p_0 self (batch_size self y) y (set_training false s)
    = (s1, Ok (init, inds)) →
  (∀ i, i ∈ inds → slot (length (replay_buffer s)) i ≠ Some j) →
  length (replay_buffer s') = length (replay_buffer s) ∧
  replay_buffer s' !! j = replay_buffer s !! j.
Proof.
  intros Hq Hp Hj. destruct (sample_q_buffer _ _ _ _ _ _ _ Hq) as [Hlen Hother].
  split; [exact Hlen|]. exact (Hother _ _ _ Hp j Hj).
Qed.

(** C4, amended.  [sample_q] checks no position for NaN or Inf and raises
    no divergence error of its own.  When a call exits by an exception, the
    exception is that of [sample_p_0] or one that the network or the
    differentiation raised in the loop, no buffer write has occurred, and
    the buffer holds what it held before the call. *)
Theorem sample_q_raise_atomic (self : JEM F) (y : option (list Z)) (n_steps : Z)
    (contrast : bool) (s s' : state) (e : exn) :
  sample_q self y n_steps contrast s = (s', Raise e) →
  replay_buffer s' = replay_buffer s ∧
  (sample_p_0 self (batch_size self y) y (set_training false s) = (s', Raise e) ∨
   ∃ x, energy_gradient contrast false (params s) y x = Raise e).
Proof.
  intros Hq. split; [exact (sample_q_raise_buffer _ _ _ _ _ _ _ Hq)|].
  destruct (sample_q_raise_inv _ _ _ _ _ _ _ Hq) as [Hp | (s1 & init & inds & Hp & Hl)];
    [left; exact Hp | right].
  destruct (draws_only_sample_p_0 _ _ _ _ _ _ Hp) as (Ht & Hpar & _).
  simpl in Ht, Hpar.
  destruct (sgld_langevin self contrast y (Z.to_nat n_steps) init s1)
    as (s2 & Hl' & _).
  rewrite Hl, Ht, Hpar in Hl'. injection Hl' as _ Hl'. symmetry in Hl'.
  exact (langevin_raise _ _ _ _ _ _ _ _ Hl').
Qed.

(** ** The mode of the network *)


(** C5, amended.  After a call of [sample_q] the mode flag of the network
    has its value of before the call exactly when the call returns and the
    network was in training mode, or the call exits by an exception and the
    network was in evaluation mode: the network is put in evaluation mode
    on entry and in training mode after the loop, and nothing restores the
    mode of before the call. *)
Theorem sample_q_mode_kept_iff (self : JEM F) (y : option (list Z)) (n_steps : Z)
    (contrast : bool) (s : state) :
  training (fst (sample_q self y n_steps contrast s)) = training s ↔
  is_ok (snd (sample_q self y n_steps contrast s)) = training s.
Proof.
  destruct (sample_q self y n_steps contrast s) as [s' r] eqn:E.
  apply sample_q_training in E. simpl. rewrite E. reflexivity.
Qed.

(** ** Construction of the buffer *)

(** C6.  For a class-conditional model ([uncond] false) with a class count
    other than zero and a capacity that is not negative, the construction
    of the buffer succeeds exactly when the class count divides the
    capacity; when it does not, the assertion [Buffer size must be
    divisible by args.n_classes] fails; when it does, the buffer has the
    capacity asked for. *)
Theorem JEM_init_divisible (self : JEM F) (s : state) :
  uncond self = false →
  n_classes self ≠ 0%Z →
  (0 ≤ buffer_size self)%Z →
  (is_ok (snd (JEM_init self s)) = true ↔ (n_classes self | buffer_size self)%Z) ∧
  (¬ (n_classes self | buffer_size self)%Z →
   snd (JEM_init self s) = Raise AssertionError) ∧
  ((n_classes self | buffer_size self)%Z →
   length (replay_buffer (fst (JEM_init self s))) = Z.to_nat (buffer_size self)).
Proof.
  intros Hu Hn Hb. unfold JEM_init. rewrite Hu. simpl negb. cbv iota.
  rewrite !bind_run. unfold lift at 1, py_mod.
  destruct (n_classes self =? 0)%Z eqn:E; [apply Z.eqb_eq in E; done|]. clear E.
  unfold py_assert, lift.
  pose proof (Z.mod_divide (buffer_size self) (n_classes self) Hn) as Hdiv.
  destruct (buffer_size self mod n_classes self =? 0)%Z eqn:E.
  - apply Z.eqb_eq in E. apply Hdiv in E. rewrite bind_run. unfold init_random.
    destruct (buffer_size self <? 0)%Z eqn:E'; [apply Z.ltb_lt in E'; lia|].
    simpl. split; [tauto|]. split; [tauto|].
    intros _. apply rows_length.
  - apply Z.eqb_neq in E. simpl. split; [|split]; [|reflexivity|tauto].
    split; [discriminate|]. intros Hd. apply Hdiv in Hd. done.
Qed.

(** ** Replay disabled and zero steps *)

(** C7.  With an empty buffer [sample_p_0] returns [bs] samples drawn by
    one new draw of the generator and no slot indices, and a call of
    [sample_q] writes nothing: the buffer is empty after it. *)
Theorem sample_q_replay_disabled (self : JEM F) (bs : Z) (y : option (list Z))
    (s : state) :
  replay_buffer s = [] →
  (0 ≤ bs)%Z →
  sample_p_0 self bs y s = (tick s, Ok (rows bs (uniform_draw (rng s)), [])) ∧
  length (rows bs (uniform_draw (rng s))) = Z.to_nat bs ∧
  ∀ n_steps contrast,
    replay_buffer (fst (sample_q self y n_steps contrast s)) = [].
Proof.
  intros Hb Hbs. split; [|split].
  - rewrite (sample_p_0_empty _ _ _ _ Hb), bind_run. unfold init_random.
    destruct (bs <? 0)%Z eqn:E; [apply Z.ltb_lt in E; lia|]. reflexivity.
  - apply rows_length.
  - intros n_steps contrast.
    destruct (sample_q self y n_steps contrast s) as [s' r] eqn:E.
    destruct (sample_q_buffer _ _ _ _ _ _ _ E) as [Hlen _].
    rewrite Hb in Hlen. simpl. destruct (replay_buffer s'); [reflexivity|discriminate].
Qed.

(** C8.  With [n_steps = 0] a call of [sample_q] returns the initial batch
    that [sample_p_0] has drawn, unchanged, and the network, in evaluation
    mode while the batch is drawn, is in training mode after the call. *)
Theorem sample_q_zero_steps (self : JEM F) (y : option (list Z))
    (contrast : bool) (s s1 : state) (init : list T) (inds : list Z) :
  sample_p_0 self (batch_size self y) y (set_training false s)
    = (s1, Ok (init, inds)) →
  snd (sample_q self y 0 contrast s) = Ok init ∧
  training (fst (sample_q self y 0 contrast s)) = true.
Proof.
  intros Hp.
  assert (sgld self contrast y (Z.to_nat 0) init s1 = (s1, Ok init)) as Hl
    by reflexivity.
  destruct (sample_q_ok _ _ 0%Z _ _ _ _ _ _ _ Hp Hl) as (s' & Hq & Ht & _).
  rewrite Hq. auto.
Qed.

End Facts.

(** * The properties at work in the small world *)

(** The scenario of the specification: capacity 100, ten classes, labels
    [0, 0, 3, 3, 9]. *)
Lemma sample_p_0_class_block_witness :
  Toy.run_p_0 Toy.world_blocks Toy.jem100 5 (Some [0; 0; 3; 3; 9]%Z)
      (Toy.st true Toy.buf100)
    = (Build_state true tt Toy.buf100 3,
       Ok ([Some 0; Some 7; Some 34; Some 31; Some 98]%Z, [0; 7; 34; 31; 98]%Z)) ∧
  Forall2 (λ i l, (i / (100 / 10))%Z = l) [0; 7; 34; 31; 98]%Z [0; 0; 3; 3; 9]%Z.
Proof.
  assert (Toy.run_p_0 Toy.world_blocks Toy.jem100 5 (Some [0; 0; 3; 3; 9]%Z)
            (Toy.st true Toy.buf100)
          = (Build_state true tt Toy.buf100 3,
             Ok ([Some 0; Some 7; Some 34; Some 31; Some 98]%Z,
                 [0; 7; 34; 31; 98]%Z))) as H
    by (vm_compute; reflexivity).
  split; [exact H|].
  refine (sample_p_0_class_block (Tensor0 := Toy.tensor) (Torch0 := Toy.world_blocks)
            Toy.jem100 5 [0; 0; 3; 3; 9]%Z (Toy.st true Toy.buf100) _ _ _
            _ _ _ _ H).
  - discriminate.
  - vm_compute. reflexivity.
  - repeat constructor; simpl; lia.
  - reflexivity.
Defined.

(** C2 as stated fails with [contrast=True]: the positions move along
    the gradient of the negated cross-entropy, here one, and not along
    that of the summed score, here zero; and where the contrastive energy
    raises, no position is updated at all. *)
Lemma sample_q_contrast_gradient :
  Toy.run_p_0 Toy.world_same_slot Toy.jem2 2 None (Toy.st false Toy.buf2)
    = (Build_state false tt Toy.buf2 3, Ok ([Some 10; Some 10]%Z, [0; 0]%Z)) ∧
  snd (Toy.run_q Toy.world_same_slot Toy.jem2 None 1 true (Toy.st true Toy.buf2))
    = Ok [Some 11; Some 12]%Z ∧
  snd (Toy.run_q Toy.world_same_slot Toy.jem2 None 1 true (Toy.st true Toy.buf2))
    ≠ @langevin Z (option Z) Toy.tensor
        (λ positions,
           @grad_score_sum Z (option Z) unit Toy.world_same_slot false tt
             positions None)
        (@randn_draw Z (option Z) unit Toy.world_same_slot) 1%Z 1%Z 1 3
        [Some 10; Some 10]%Z ∧
  snd (Toy.run_q Toy.world_contrast_raises Toy.jem2 None 1 true
         (Toy.st true Toy.buf2))
    ≠ @langevin Z (option Z) Toy.tensor
        (λ positions,
           @grad_score_sum Z (option Z) unit Toy.world_contrast_raises false tt
             positions None)
        (@randn_draw Z (option Z) unit Toy.world_contrast_raises) 1%Z 1%Z 1 3
        [Some 10; Some 10]%Z.
Proof.
  split; [vm_compute; reflexivity|]. split; [vm_compute; reflexivity|].
  split; vm_compute; discriminate.
Qed.

Lemma sample_q_langevin_witness :
  Toy.run_p_0 Toy.world_same_slot Toy.jem2 2 None (Toy.st false Toy.buf2)
    = (Build_state false tt Toy.buf2 3, Ok ([Some 10; Some 10]%Z, [0; 0]%Z)) ∧
  snd (Toy.run_q Toy.world_same_slot Toy.jem2 None 1 false (Toy.st true Toy.buf2))
    = Ok [Some 10; Some 11]%Z.
Proof.
  assert (Toy.run_p_0 Toy.world_same_slot Toy.jem2 2 None (Toy.st false Toy.buf2)
          = (Build_state false tt Toy.buf2 3, Ok ([Some 10; Some 10]%Z, [0; 0]%Z)))
    as H by (vm_compute; reflexivity).
  split; [exact H|].
  exact (proj1 (sample_q_langevin (Tensor0 := Toy.tensor)
                  (Torch0 := Toy.world_same_slot) Toy.jem2 None 1 false
                  (Toy.st true Toy.buf2) _ _ _ H)).
Defined.

(** C3 as stated fails when a slot is drawn twice: both positions have
    drawn slot 0, the returned batch is [10, 11], and slot 0 holds one
    tensor, so that reading the buffer at the drawn indices gives
    [11, 11]. *)
Lemma read_back_fails_on_duplicates :
  Toy.run_p_0 Toy.world_same_slot Toy.jem2 2 None (Toy.st false Toy.buf2)
    = (Build_state false tt Toy.buf2 3, Ok ([Some 10; Some 10]%Z, [0; 0]%Z)) ∧
  Toy.run_q Toy.world_same_slot Toy.jem2 None 1 false (Toy.st true Toy.buf2)
    = (Build_state true tt [Some 11; Some 20]%Z 4, Ok [Some 10; Some 11]%Z) ∧
  index_get [Some 11; Some 20]%Z [0; 0]%Z ≠ Ok [Some 10; Some 11]%Z.
Proof.
  split; [vm_compute; reflexivity|]. split; [vm_compute; reflexivity|].
  vm_compute. discriminate.
Qed.

Lemma sample_q_read_back_witness :
  Toy.run_q Toy.world_own_slot Toy.jem2 None 1 false (Toy.st true Toy.buf2)
    = (Build_state true tt [Some 10; Some 21]%Z 4, Ok [Some 10; Some 21]%Z) ∧
  index_get [Some 10; Some 21]%Z [0; 1]%Z = Ok [Some 10; Some 21]%Z.
Proof.
  assert (Toy.run_p_0 Toy.world_own_slot Toy.jem2 2 None (Toy.st false Toy.buf2)
          = (Build_state false tt Toy.buf2 3, Ok ([Some 10; Some 20]%Z, [0; 1]%Z)))
    as Hp by (vm_compute; reflexivity).
  assert (Toy.run_q Toy.world_own_slot Toy.jem2 None 1 false (Toy.st true Toy.buf2)
          = (Build_state true tt [Some 10; Some 21]%Z 4, Ok [Some 10; Some 21]%Z))
    as Hq by (vm_compute; reflexivity).
  split; [exact Hq|].
  refine (proj2 (sample_q_read_back (Tensor0 := Toy.tensor)
                   (Torch0 := Toy.world_own_slot) Toy.jem2 None 1 false
                   (Toy.st true Toy.buf2) _ _ _ _ _ _ Hp Hq) _).
  - discriminate.
  - intros [|[|k]] [|[|k']] i i' Hk Hi Hi'; simpl in Hi, Hi'; try done;
      injection Hi as <-; injection Hi' as <-; vm_compute; discriminate.
Defined.

(** C4 as stated fails: the gradient of the first step is not finite, the
    positions after the update are not finite, the call returns them and
    has written one of them into slot 0 of the buffer. *)
Lemma sample_q_no_divergence_check :
  Toy.run_q Toy.world_inf Toy.jem2 None 1 false (Toy.st true Toy.buf2)
    = (Build_state true tt [None; Some 20%Z] 4, Ok [None; None]) ∧
  forallb Toy.is_finite [None; None] = false ∧
  replay_buffer
    (fst (Toy.run_q Toy.world_inf Toy.jem2 None 1 false (Toy.st true Toy.buf2)))
    ≠ Toy.buf2.
Proof.
  split; [vm_compute; reflexivity|]. split; [reflexivity|].
  vm_compute. discriminate.
Qed.

Lemma sample_q_raise_atomic_witness :
  Toy.run_q Toy.world_raise Toy.jem2 None 1 false (Toy.st true Toy.buf2)
    = (Build_state false tt Toy.buf2 3, Raise ModelError) ∧
  replay_buffer (Build_state false tt Toy.buf2 3) = Toy.buf2.
Proof.
  assert (Toy.run_q Toy.world_raise Toy.jem2 None 1 false (Toy.st true Toy.buf2)
          = (Build_state false tt Toy.buf2 3, Raise ModelError)) as Hq
    by (vm_compute; reflexivity).
  split; [exact Hq|].
  exact (proj1 (sample_q_raise_atomic (Tensor0 := Toy.tensor)
                  (Torch0 := Toy.world_raise) Toy.jem2 None 1 false
                  (Toy.st true Toy.buf2) _ _ Hq)).
Defined.

(** C5 as stated fails: a network in evaluation mode before the call is
    in training mode after a call that returns, and a network in training
    mode before a call in which the network raises is in evaluation mode
    after it. *)
Lemma sample_q_mode_not_restored :
  training (fst (Toy.run_q Toy.world_own_slot Toy.jem2 None 1 false
                   (Toy.st false Toy.buf2)))
    ≠ training (Toy.st false Toy.buf2) ∧
  training (fst (Toy.run_q Toy.world_raise Toy.jem2 None 1 false
                   (Toy.st true Toy.buf2)))
    ≠ training (Toy.st true Toy.buf2).
Proof. split; vm_compute; discriminate. Qed.

Lemma JEM_init_divisible_witness :
  (10 | 100)%Z ∧
  is_ok (snd (Toy.run_init Toy.world_blocks Toy.jem100 (Toy.st true []))) = true ∧
  length (replay_buffer
            (fst (Toy.run_init Toy.world_blocks Toy.jem100 (Toy.st true []))))
    = 100.
Proof.
  assert (10 | 100)%Z as Hd by (exists 10%Z; reflexivity).
  destruct (JEM_init_divisible (Torch0 := Toy.world_blocks) Toy.jem100
              (Toy.st true [])) as (Hiff & _ & Hlen).
  - reflexivity.
  - discriminate.
  - vm_compute. discriminate.
  - split; [exact Hd|]. split; [exact (proj2 Hiff Hd) | exact (Hlen Hd)].
Defined.

Lemma sample_q_replay_disabled_witness :
  Toy.run_p_0 Toy.world_own_slot Toy.jem2 2 None (Toy.st true [])
    = (Build_state true tt [] 1, Ok ([Some 100; Some 101]%Z, [])) ∧
  replay_buffer
    (fst (Toy.run_q Toy.world_own_slot Toy.jem2 None 1 false (Toy.st true [])))
    = [].
Proof.
  destruct (sample_q_replay_disabled (Tensor0 := Toy.tensor)
              (Torch0 := Toy.world_own_slot) Toy.jem2 2 None (Toy.st true []))
    as (Hp & _ & Hq).
  - reflexivity.
  - lia.
  - split; [exact Hp | exact (Hq 1%Z false)].
Defined.

Lemma sample_q_zero_steps_witness :
  Toy.run_p_0 Toy.world_own_slot Toy.jem2 2 None (Toy.st false Toy.buf2)
    = (Build_state false tt Toy.buf2 3, Ok ([Some 10; Some 20]%Z, [0; 1]%Z)) ∧
  snd (Toy.run_q Toy.world_own_slot Toy.jem2 None 0 false (Toy.st true Toy.buf2))
    = Ok [Some 10; Some 20]%Z.
Proof.
  assert (Toy.run_p_0 Toy.world_own_slot Toy.jem2 2 None (Toy.st false Toy.buf2)
          = (Build_state false tt Toy.buf2 3, Ok ([Some 10; Some 20]%Z, [0; 1]%Z)))
    as Hp by (vm_compute; reflexivity).
  split; [exact Hp|].
  exact (proj1 (sample_q_zero_steps (Tensor0 := Toy.tensor)
                  (Torch0 := Toy.world_own_slot) Toy.jem2 None false
                  (Toy.st true Toy.buf2) _ _ _ Hp)).
Defined.

Lemma sample_q_frame_witness :
  Toy.run_q Toy.world_same_slot Toy.jem2 None 1 false (Toy.st true Toy.buf2)
    = (Build_state true tt [Some 11; Some 20]%Z 4, Ok [Some 10; Some 11]%Z) ∧
  length [Some 11; Some 20]%Z = length Toy.buf2 ∧
  [Some 11; Some 20]%Z !! 1 = Toy.buf2 !! 1.
Proof.
  assert (Toy.run_p_0 Toy.world_same_slot Toy.jem2 2 None (Toy.st false Toy.buf2)
          = (Build_state false tt Toy.buf2 3, Ok ([Some 10; Some 10]%Z, [0; 0]%Z)))
    as Hp by (vm_compute; reflexivity).
  assert (Toy.run_q Toy.world_same_slot Toy.jem2 None 1 false (Toy.st true Toy.buf2)
          = (Build_state true tt [Some 11; Some 20]%Z 4, Ok [Some 10; Some 11]%Z))
    as Hq by (vm_compute; reflexivity).
  split; [exact Hq|].
  refine (sample_q_frame (Tensor0 := Toy.tensor) (Torch0 := Toy.world_same_slot)
            Toy.jem2 None 1 false (Toy.st true Toy.buf2) _ _ _ _ _ 1 Hq Hp _).
  intros i Hi. apply list_elem_of_In in Hi.
  destruct Hi as [<-|[<-|[]]]; vm_compute; discriminate.
Defined.

(** * More on the initial-state sampler and the write-back *)

Section Draws.
Context {F T P : Type} `{!Tensor F T} `{!Torch F T P}.

Abbreviation state := (state T P).

Tactic Notation "inv_bind" hyp(H) "as" ident(s1) ident(a) ident(H1) :=
  apply bind_ok in H as (s1 & a & H1 & H).

Lemma index_get_total (buf : list T) (inds : list Z) :
  Forall (λ i, is_Some (slot (length buf) i)) inds →
  ∃ vs, index_get buf inds = Ok vs.
Proof.
  induction inds as [|i inds IH]; intros Hv; simpl; [eauto|].
  inversion Hv as [|? ? [k Hk] Hv']; subst. rewrite Hk. simpl.
  destruct (lookup_lt_is_Some_2 buf k (slot_lt _ _ _ Hk)) as [v Hvk].
  rewrite Hvk. destruct (IH Hv') as [vs ->]. eauto.
Qed.

Lemma index_get_raise (buf : list T) (inds : list Z) (e : exn) :
  index_get buf inds = Raise e → e = IndexError.
Proof.
  induction inds as [|i inds IH]; simpl; [discriminate|].
  destruct (slot (length buf) i ≫= _); [|by intros [= <-]].
  destruct (index_get buf inds); [discriminate|].
  intros [= <-]. by apply IH.
Qed.

(** The run of [sample_p_0] on a buffer that is not empty, once the block
    size is positive, the indices are in hand and can be read. *)
Lemma sample_p_0_run (self : JEM F) (bs : Z) (y : option (list Z)) (s : state)
    (inds : list Z) :
  replay_buffer s ≠ [] →
  (0 ≤ bs)%Z →
  (0 < block_size self y s)%Z →
  match y with
  | None => inds = rows bs (λ i, randint_raw (rng s) i mod block_size self y s)%Z
  | Some y' =>
      n_classes self ≠ 0%Z ∧ uncond self = false ∧
      bcast (λ l i, wrap64 (wrap64 (l * block_size self y s) + i)) y'
        (rows bs (λ i, randint_raw (rng s) i mod block_size self y s)%Z) = Ok inds
  end →
  Forall (λ i, is_Some (slot (length (replay_buffer s)) i)) inds →
  length inds = Z.to_nat bs →
  ∃ samples,
    sample_p_0 self bs y s = (tick (tick (tick s)), Ok (samples, inds)).
Proof.
  intros Hne Hbs Hpos Hinds Hvalid Hlen.
  destruct (index_get_total _ _ Hvalid) as [bufs Hget].
  pose proof (index_get_length _ _ _ Hget) as Hlb.
  unfold sample_p_0. rewrite bind_run. simpl.
  destruct (length (replay_buffer s) =? 0) eqn:E.
  { apply Nat.eqb_eq in E. destruct (replay_buffer s); [done | discriminate]. }
  clear E. rewrite bind_run.
  assert (lift (match y with
                | Some _ => py_floordiv (Z.of_nat (length (replay_buffer s)))
                              (n_classes self)
                | None => Ok (Z.of_nat (length (replay_buffer s)))
                end) s = (s, Ok (block_size self y s))) as ->.
  { unfold lift, block_size, py_floordiv. destruct y as [y'|]; [|reflexivity].
    destruct Hinds as (Hn & _). apply Z.eqb_neq in Hn. by rewrite Hn. }
  rewrite bind_run. unfold torch_randint at 1.
  replace ((block_size self y s <=? 0)%Z || (bs <? 0)%Z) with false.
  2: { symmetry. apply orb_false_iff. split; [apply Z.leb_gt | apply Z.ltb_ge]; lia. }
  rewrite bind_run.
  assert (match y with
          | Some y0 =>
              lift (bcast (λ l i, wrap64 (wrap64 (l * block_size self y s) + i)) y0
                      (rows bs (λ i, randint_raw (rng s) i mod block_size self y s)%Z))
              ≫= λ inds0, py_assert (negb (uncond self)) ≫= λ _, mret inds0
          | None => mret (rows bs (λ i, randint_raw (rng s) i mod block_size self y s)%Z)
          end (tick s) = (tick s, Ok inds)) as ->.
  { destruct y as [y'|].
    - destruct Hinds as (_ & Hu & Hb). rewrite bind_run. unfold lift at 1.
      rewrite Hb, bind_run. unfold py_assert, lift. rewrite Hu. reflexivity.
    - subst inds. reflexivity. }
  rewrite bind_run. unfold lift at 1. simpl replay_buffer. rewrite Hget.
  rewrite bind_run. unfold init_random at 1.
  replace (bs <? 0)%Z with false by (symmetry; apply Z.ltb_ge; lia).
  rewrite bind_run. unfold torch_rand at 1.
  replace (bs <? 0)%Z with false by (symmetry; apply Z.ltb_ge; lia).
  cbv zeta. rewrite bind_run. unfold lift at 1.
  rewrite bcast_same by (rewrite length_map, !rows_length; reflexivity).
  rewrite bind_run. unfold lift at 1.
  rewrite bcast_same by (rewrite !length_map, rows_length; lia).
  rewrite bind_run. unfold lift at 1.
  rewrite bcast_same
    by (rewrite !length_zip_with, !length_map, !rows_length; lia).
  eexists. reflexivity.
Qed.

Lemma rows_Forall {A : Type} (Q : A → Prop) (bs : Z) (f : nat → A) :
  (∀ k, Q (f k)) → Forall Q (rows bs f).
Proof.
  intros HQ. apply Forall_lookup. intros k a Hk.
  apply rows_lookup in Hk. subst a. apply HQ.
Qed.

Lemma slot_is_Some (len : nat) (i : Z) :
  (0 ≤ i < Z.of_nat len)%Z → is_Some (slot len i).
Proof. intros H. rewrite (slot_nonneg _ _ H). eauto. Qed.

Lemma slot_None (len : nat) (i : Z) :
  (i < - Z.of_nat len ∨ Z.of_nat len ≤ i)%Z → slot len i = None.
Proof.
  intros H. unfold slot.
  destruct (- Z.of_nat len <=? i)%Z eqn:E1; [|reflexivity].
  destruct (i <? Z.of_nat len)%Z eqn:E2; [|reflexivity].
  apply Z.leb_le in E1. apply Z.ltb_lt in E2. lia.
Qed.

Lemma sample_p_0_unconditional_ok (self : JEM F) (bs : Z) (s : state) :
  replay_buffer s ≠ [] →
  (0 ≤ bs)%Z →
  ∃ samples inds,
    sample_p_0 self bs None s = (tick (tick (tick s)), Ok (samples, inds)) ∧
    length samples = Z.to_nat bs.
Proof.
  intros Hne Hbs.
  assert (0 < Z.of_nat (length (replay_buffer s)))%Z as Hpos
    by (destruct (replay_buffer s); [done | simpl; lia]).
  destruct (sample_p_0_run self bs None s _ Hne Hbs Hpos eq_refl)
    as [samples Hp].
  { apply rows_Forall. intros k. apply slot_is_Some.
    apply Z.mod_pos_bound. exact Hpos. }
  { apply rows_length. }
  eexists _, _. split; [exact Hp|].
  destruct (sample_p_0_inv _ _ _ _ _ _ _ Hne Hp) as (_ & _ & _ & _ & Hlen).
  rewrite Hlen. apply rows_length.
Qed.

(** X1.  Without labels, [sample_p_0] on a buffer that is not empty and
    with a batch size that is not negative always returns: [bs] samples
    and [bs] slot indices, each index in [0, capacity), after three draws
    of the generator (the indices, the random samples, the coin flips);
    the network and the buffer are as before. *)
Theorem sample_p_0_unconditional (self : JEM F) (bs : Z) (s : state) :
  replay_buffer s ≠ [] →
  (0 ≤ bs)%Z →
  ∃ samples inds,
    sample_p_0 self bs None s = (tick (tick (tick s)), Ok (samples, inds)) ∧
    length samples = Z.to_nat bs ∧ length inds = Z.to_nat bs ∧
    Forall (λ i, 0 ≤ i < Z.of_nat (length (replay_buffer s)))%Z inds.
Proof.
  intros Hne Hbs.
  assert (0 < Z.of_nat (length (replay_buffer s)))%Z as Hpos
    by (destruct (replay_buffer s); [done | simpl; lia]).
  set (inds := rows bs (λ i, randint_raw (rng s) i
                             mod Z.of_nat (length (replay_buffer s)))%Z).
  assert (Forall (λ i, 0 ≤ i < Z.of_nat (length (replay_buffer s)))%Z inds)
    as Hrange.
  { apply rows_Forall. intros k. apply Z.mod_pos_bound. exact Hpos. }
  destruct (sample_p_0_run self bs None s inds Hne Hbs Hpos eq_refl)
    as [samples Hp].
  { eapply Forall_impl; [exact Hrange|]. intros i Hi. by apply slot_is_Some. }
  { apply rows_length. }
  exists samples, inds. split; [exact Hp|].
  destruct (sample_p_0_inv _ _ _ _ _ _ _ Hne Hp) as (_ & _ & _ & _ & Hlen).
  rewrite Hlen. unfold inds. rewrite rows_length. auto.
Qed.

(** The index that a class label and a draw below the block size give,
    when label and capacity are small enough for 64-bit arithmetic. *)
Lemma class_index_exact (bsz l r : Z) :
  (- 2 ^ 31 ≤ l < 2 ^ 31)%Z → (0 ≤ r < bsz)%Z → (bsz < 2 ^ 31)%Z →
  wrap64 (wrap64 (l * bsz) + r) = (l * bsz + r)%Z.
Proof.
  intros Hl Hr Hb.
  assert (- 2 ^ 62 ≤ l * bsz ≤ 2 ^ 62)%Z by nia.
  rewrite (wrap64_small (l * bsz)) by lia.
  apply wrap64_small. lia.
Qed.

(** The class-conditional indices for labels in [0, n_classes). *)
Lemma class_indices_valid (self : JEM F) (y : list Z) (s : state) :
  (0 < n_classes self)%Z →
  (n_classes self ≤ Z.of_nat (length (replay_buffer s)))%Z →
  (Z.of_nat (length (replay_buffer s)) < 2 ^ 63)%Z →
  Forall (λ l, 0 ≤ l < n_classes self)%Z y →
  let bsz := (Z.of_nat (length (replay_buffer s)) / n_classes self)%Z in
  let inds := zip_with (λ l i, wrap64 (wrap64 (l * bsz) + i)) y
                (rows (Z.of_nat (length y))
                   (λ i, randint_raw (rng s) i mod bsz)%Z) in
  (0 < bsz)%Z ∧ length inds = length y ∧
  Forall2 (λ i l, l * bsz ≤ i < (l + 1) * bsz)%Z inds y ∧
  Forall (λ i, 0 ≤ i < Z.of_nat (length (replay_buffer s)))%Z inds.
Proof.
  intros Hn Hcap H63 Hy bsz inds.
  assert (0 < bsz)%Z as Hpos by (apply Z.div_str_pos; lia).
  assert (n_classes self * bsz ≤ Z.of_nat (length (replay_buffer s)))%Z as Hle
    by (apply Z.mul_div_le; lia).
  assert (length inds = length y) as Hlen.
  { unfold inds. rewrite length_zip_with, rows_length. lia. }
  assert (Forall2 (λ i l, l * bsz ≤ i < (l + 1) * bsz)%Z inds y) as Hblock.
  { apply Forall2_same_length_lookup_2; [exact Hlen|].
    intros k i l Hi Hl. unfold inds in Hi.
    apply lookup_zip_with_Some in Hi as (l' & r & -> & Hl' & Hr).
    assert (l' = l) as -> by congruence.
    apply rows_lookup in Hr. subst r.
    rewrite Forall_lookup in Hy. specialize (Hy _ _ Hl).
    pose proof (Z.mod_pos_bound (randint_raw (rng s) k) bsz Hpos) as Hr.
    assert (0 ≤ l * bsz ≤ (n_classes self - 1) * bsz)%Z by nia.
    rewrite (wrap64_small (l * bsz)) by lia.
    rewrite wrap64_small by lia. lia. }
  split; [exact Hpos|]. split; [exact Hlen|]. split; [exact Hblock|].
  apply Forall_lookup. intros k i Hi.
  destruct (Forall2_lookup_l _ _ _ _ _ Hblock Hi) as (l & Hl & Hil).
  rewrite Forall_lookup in Hy. specialize (Hy _ _ Hl). nia.
Qed.

Lemma sample_p_0_conditional_ok (self : JEM F) (y : list Z) (s : state) :
  uncond self = false →
  (0 < n_classes self)%Z →
  (n_classes self ≤ Z.of_nat (length (replay_buffer s)))%Z →
  (Z.of_nat (length (replay_buffer s)) < 2 ^ 63)%Z →
  Forall (λ l, 0 ≤ l < n_classes self)%Z y →
  let bsz := (Z.of_nat (length (replay_buffer s)) / n_classes self)%Z in
  ∃ samples,
    sample_p_0 self (Z.of_nat (length y)) (Some y) s
      = (tick (tick (tick s)),
         Ok (samples,
             zip_with (λ l i, wrap64 (wrap64 (l * bsz) + i)) y
               (rows (Z.of_nat (length y))
                  (λ i, randint_raw (rng s) i mod bsz)%Z))) ∧
    length samples = length y.
Proof.
  intros Hu Hn Hcap H63 Hy bsz.
  destruct (class_indices_valid self y s Hn Hcap H63 Hy)
    as (Hpos & Hlen & _ & Hrange).
  assert (replay_buffer s ≠ []) as Hne
    by (destruct (replay_buffer s); [simpl in Hcap; lia | done]).
  fold bsz in Hpos, Hlen, Hrange.
  set (inds := zip_with (λ l i, wrap64 (wrap64 (l * bsz) + i)) y
                 (rows (Z.of_nat (length y))
                    (λ i, randint_raw (rng s) i mod bsz)%Z)) in *.
  destruct (sample_p_0_run self (Z.of_nat (length y)) (Some y) s inds)
    as [samples Hp]; [exact Hne | lia | exact Hpos | | | |].
  - split; [lia|]. split; [exact Hu|].
    apply bcast_same. rewrite rows_length. lia.
  - eapply Forall_impl; [exact Hrange|]. intros i Hi. by apply slot_is_Some.
  - rewrite Hlen. lia.
  - exists samples. split; [exact Hp|].
    destruct (sample_p_0_inv _ _ _ _ _ _ _ Hne Hp) as (_ & _ & _ & _ & Hl).
    rewrite Hl. exact Hlen.
Qed.

(** X2.  On a class-conditional model whose buffer has at least as many
    slots as there are classes, [sample_p_0] with a batch of labels in
    [0, n_classes) always returns, one sample per label, after three draws
    of the generator, and the index it returns for label [l] lies in
    [l * block, (l + 1) * block) for the block size capacity [//] class
    count. *)
Theorem sample_p_0_conditional (self : JEM F) (y : list Z) (s : state) :
  uncond self = false →
  (0 < n_classes self)%Z →
  (n_classes self ≤ Z.of_nat (length (replay_buffer s)))%Z →
  (Z.of_nat (length (replay_buffer s)) < 2 ^ 63)%Z →
  Forall (λ l, 0 ≤ l < n_classes self)%Z y →
  ∃ samples inds,
    sample_p_0 self (Z.of_nat (length y)) (Some y) s
      = (tick (tick (tick s)), Ok (samples, inds)) ∧
    length samples = length y ∧
    Forall2 (λ i l,
               l * (Z.of_nat (length (replay_buffer s)) / n_classes self) ≤ i
               < (l + 1) * (Z.of_nat (length (replay_buffer s)) / n_classes self))%Z
            inds y.
Proof.
  intros Hu Hn Hcap H63 Hy.
  destruct (sample_p_0_conditional_ok self y s Hu Hn Hcap H63 Hy)
    as (samples & Hp & Hlen).
  destruct (class_indices_valid self y s Hn Hcap H63 Hy) as (_ & _ & Hblock & _).
  eexists _, _. split; [exact Hp|]. split; [exact Hlen | exact Hblock].
Qed.

(** The run of [sample_p_0] with labels up to the read of the buffer. *)
Lemma sample_p_0_read_raise (self : JEM F) (y : list Z) (s : state) (e : exn) :
  replay_buffer s ≠ [] →
  n_classes self ≠ 0%Z →
  (0 < block_size self (Some y) s)%Z →
  uncond self = false →
  index_get (replay_buffer s)
    (zip_with (λ l i, wrap64 (wrap64 (l * block_size self (Some y) s) + i)) y
       (rows (Z.of_nat (length y))
          (λ i, randint_raw (rng s) i mod block_size self (Some y) s)%Z))
    = Raise e →
  sample_p_0 self (Z.of_nat (length y)) (Some y) s = (tick s, Raise e).
Proof.
  intros Hne Hn Hpos Hu Hget.
  unfold sample_p_0. rewrite bind_run. simpl.
  destruct (length (replay_buffer s) =? 0) eqn:E.
  { apply Nat.eqb_eq in E. destruct (replay_buffer s); [done | discriminate]. }
  clear E. rewrite bind_run. unfold lift at 1, py_floordiv.
  apply Z.eqb_neq in Hn. rewrite Hn.
  unfold block_size in Hpos, Hget.
  rewrite bind_run. unfold torch_randint at 1.
  replace ((Z.of_nat (length (replay_buffer s)) / n_classes self <=? 0)%Z
           || (Z.of_nat (length y) <? 0)%Z) with false.
  2: { symmetry. apply orb_false_iff. split; [apply Z.leb_gt | apply Z.ltb_ge]; lia. }
  rewrite bind_run.
  set (bsz := (Z.of_nat (length (replay_buffer s)) / n_classes self)%Z) in *.
  set (drawn := rows (Z.of_nat (length y)) (λ i, randint_raw (rng s) i mod bsz)%Z)
    in *.
  assert ((lift (bcast (λ l i, wrap64 (wrap64 (l * bsz) + i)) y drawn)
           ≫= λ inds, py_assert (negb (uncond self)) ≫= λ _, mret inds) (tick s)
          = (tick s,
             Ok (zip_with (λ l i, wrap64 (wrap64 (l * bsz) + i)) y drawn))) as ->.
  { rewrite bind_run. unfold lift at 1.
    rewrite bcast_same by (unfold drawn; rewrite rows_length; lia).
    rewrite bind_run. unfold py_assert, lift. rewrite Hu. reflexivity. }
  rewrite bind_run. unfold lift at 1. simpl replay_buffer. rewrite Hget.
  reflexivity.
Qed.

(** X3.  On a class-conditional model whose class count divides the
    capacity, a batch with a label outside [-n_classes, n_classes) makes
    [sample_p_0] raise an [IndexError], after the draw of the indices and
    before any sample is read: such a label is never mapped to a slot of
    another class. *)
Theorem sample_p_0_label_out_of_range (self : JEM F) (y : list Z) (s : state) :
  replay_buffer s ≠ [] →
  uncond self = false →
  (0 < n_classes self)%Z →
  (n_classes self | Z.of_nat (length (replay_buffer s)))%Z →
  (Z.of_nat (length (replay_buffer s)) < 2 ^ 31)%Z →
  Forall (λ l, - 2 ^ 31 ≤ l < 2 ^ 31)%Z y →
  Exists (λ l, l < - n_classes self ∨ n_classes self ≤ l)%Z y →
  sample_p_0 self (Z.of_nat (length y)) (Some y) s = (tick s, Raise IndexError).
Proof.
  intros Hne Hu Hn Hdiv Hcap Hy Hbad.
  assert (0 < Z.of_nat (length (replay_buffer s)))%Z as Hlen
    by (destruct (replay_buffer s); [done | simpl; lia]).
  set (bsz := block_size self (Some y) s).
  assert (n_classes self * bsz = Z.of_nat (length (replay_buffer s)))%Z as Hexact.
  { unfold bsz, block_size. symmetry. apply Z_div_exact_full_2; [lia|].
    apply Z.mod_divide; [lia | exact Hdiv]. }
  assert (0 < bsz)%Z as Hpos by nia.
  set (inds := zip_with (λ l i, wrap64 (wrap64 (l * bsz) + i)) y
                 (rows (Z.of_nat (length y))
                    (λ i, randint_raw (rng s) i mod bsz)%Z)).
  destruct (index_get (replay_buffer s) inds) as [vs|e] eqn:Hget.
  - exfalso. apply index_get_valid in Hget.
    apply Exists_exists in Hbad as (l & Hl & Hout).
    apply list_elem_of_lookup in Hl as [k Hk].
    assert (is_Some (inds !! k)) as [i Hi].
    { apply lookup_lt_is_Some_2. unfold inds.
      rewrite length_zip_with, rows_length.
      apply lookup_lt_Some in Hk. lia. }
    rewrite Forall_lookup in Hget. destruct (Hget _ _ Hi) as [j Hj].
    unfold inds in Hi.
    apply lookup_zip_with_Some in Hi as (l' & r & -> & Hl' & Hr).
    assert (l' = l) as -> by congruence.
    apply rows_lookup in Hr. subst r.
    rewrite Forall_lookup in Hy. specialize (Hy _ _ Hk).
    pose proof (Z.mod_pos_bound (randint_raw (rng s) k) bsz Hpos) as Hr.
    rewrite class_index_exact in Hj by lia.
    rewrite slot_None in Hj; [discriminate|]. nia.
  - rewrite (index_get_raise _ _ _ Hget) in Hget.
    apply sample_p_0_read_raise; [exact Hne | lia | exact Hpos | exact Hu | exact Hget].
Qed.

(** X5.  With labels on an unconditional model, [sample_p_0] on a buffer
    that is not empty fails the assertion, after the draw of the slot
    indices and before a sample is read or drawn. *)
Theorem sample_p_0_labels_unconditional (self : JEM F) (y : list Z) (s : state) :
  replay_buffer s ≠ [] →
  uncond self = true →
  (0 < n_classes self ≤ Z.of_nat (length (replay_buffer s)))%Z →
  sample_p_0 self (Z.of_nat (length y)) (Some y) s = (tick s, Raise AssertionError).
Proof.
  intros Hne Hu Hn.
  assert (0 < Z.of_nat (length (replay_buffer s)) / n_classes self)%Z as Hpos
    by (apply Z.div_str_pos; lia).
  unfold sample_p_0. rewrite bind_run. simpl.
  destruct (length (replay_buffer s) =? 0) eqn:E.
  { apply Nat.eqb_eq in E. destruct (replay_buffer s); [done | discriminate]. }
  clear E. rewrite bind_run. unfold lift at 1, py_floordiv.
  replace (n_classes self =? 0)%Z with false by (symmetry; apply Z.eqb_neq; lia).
  rewrite bind_run. unfold torch_randint at 1.
  replace ((Z.of_nat (length (replay_buffer s)) / n_classes self <=? 0)%Z
           || (Z.of_nat (length y) <? 0)%Z) with false.
  2: { symmetry. apply orb_false_iff. split; [apply Z.leb_gt | apply Z.ltb_ge]; lia. }
  rewrite bind_run.
  set (bsz := (Z.of_nat (length (replay_buffer s)) / n_classes self)%Z) in *.
  set (drawn := rows (Z.of_nat (length y)) (λ i, randint_raw (rng s) i mod bsz)%Z)
    in *.
  assert ((lift (bcast (λ l i, wrap64 (wrap64 (l * bsz) + i)) y drawn)
           ≫= λ inds, py_assert (negb (uncond self)) ≫= λ _, mret inds) (tick s)
          = (tick s, Raise AssertionError)) as ->.
  { rewrite bind_run. unfold lift at 1.
    rewrite bcast_same by (unfold drawn; rewrite rows_length; lia).
    rewrite bind_run. unfold py_assert, lift. rewrite Hu. reflexivity. }
  reflexivity.
Qed.

(** ** What the write-back stores *)

Lemma index_put_written (inds : list Z) (vals buf buf' : list T) (i : Z) :
  index_put buf inds vals = Ok buf' →
  i ∈ inds →
  ∃ k i' v,
    inds !! k = Some i' ∧ slot (length buf) i' = slot (length buf) i ∧
    vals !! k = Some v ∧ slot (length buf) i ≫= (buf' !!.) = Some v.
Proof.
  revert vals buf i. induction inds as [|i0 inds IH]; intros [|v0 vals] buf i;
    simpl; try discriminate.
  { intros _ Hi. by apply elem_of_nil in Hi. }
  destruct (slot (length buf) i0) as [k0|] eqn:E; [|discriminate].
  intros H Hi.
  destruct (decide (Exists (λ i'', slot (length buf) i'' = slot (length buf) i) inds))
    as [Hex|Hno].
  - apply Exists_exists in Hex as (i'' & Hi'' & Hs).
    destruct (IH _ _ _ H Hi'') as (k & i' & v & Hk & Hs' & Hv & Hread).
    rewrite length_insert in Hs', Hread.
    exists (S k), i', v. simpl. rewrite <- Hs. auto.
  - assert (i = i0) as ->.
    { apply elem_of_cons in Hi as [->|Hi]; [reflexivity|].
      exfalso. apply Hno. apply Exists_exists. eauto. }
    exists 0, i0, v0. simpl. rewrite E. simpl.
    repeat split; try reflexivity.
    rewrite (index_put_other _ _ _ _ k0 H).
    + apply list_lookup_insert_eq. exact (slot_lt _ _ _ E).
    + intros i' Hi' Hs. rewrite length_insert in Hs.
      apply Hno. apply Exists_exists. exists i'. split; [exact Hi' | congruence].
Qed.


(** ** Construction, then sampling *)

Lemma JEM_init_ok_inv (self : JEM F) (s s1 : state) :
  uncond self = false →
  JEM_init self s = (s1, Ok tt) →
  n_classes self ≠ 0%Z ∧ (buffer_size self mod n_classes self = 0)%Z ∧
  (0 ≤ buffer_size self)%Z ∧
  s1 = set_buffer (rows (buffer_size self) (uniform_draw (rng s))) (tick s).
Proof.
  intros Hu H. unfold JEM_init in H. rewrite Hu in H. simpl negb in H. cbv iota in H.
  inv_bind H as s2 u Hc. inv_bind Hc as s3 r Hm.
  unfold lift, py_mod in Hm.
  destruct (n_classes self =? 0)%Z eqn:En; [discriminate|].
  apply Z.eqb_neq in En. injection Hm as <- <-.
  unfold py_assert, lift in Hc.
  destruct (buffer_size self mod n_classes self =? 0)%Z eqn:Em; [|discriminate].
  apply Z.eqb_eq in Em. injection Hc as <-.
  inv_bind H as s4 buf Hi. unfold init_random in Hi.
  destruct (buffer_size self <? 0)%Z eqn:Eb; [discriminate|].
  apply Z.ltb_ge in Eb. injection Hi as <- <-.
  unfold put_buffer in H. injection H as <-. auto.
Qed.

(** X6.  A buffer that [JEM.__init__] has built for a class-conditional
    model with a positive class count and a positive capacity is divided
    into exactly [n_classes] blocks of [buffer_size // n_classes] slots,
    and [sample_p_0] with labels in [0, n_classes) then always returns,
    the index for label [l] lying in block [l]. *)
Theorem JEM_init_then_sample (self : JEM F) (y : list Z) (s s1 : state) :
  uncond self = false →
  (0 < n_classes self)%Z →
  (0 < buffer_size self < 2 ^ 63)%Z →
  JEM_init self s = (s1, Ok tt) →
  Forall (λ l, 0 ≤ l < n_classes self)%Z y →
  (n_classes self * (buffer_size self / n_classes self) = buffer_size self)%Z ∧
  Z.of_nat (length (replay_buffer s1)) = buffer_size self ∧
  ∃ samples inds,
    sample_p_0 self (Z.of_nat (length y)) (Some y) s1
      = (tick (tick (tick s1)), Ok (samples, inds)) ∧
    length samples = length y ∧
    Forall2 (λ i l,
               l * (buffer_size self / n_classes self) ≤ i
               < (l + 1) * (buffer_size self / n_classes self))%Z
            inds y.
Proof.
  intros Hu Hn Hcap Hinit Hy.
  destruct (JEM_init_ok_inv _ _ _ Hu Hinit) as (_ & Hmod & _ & ->).
  assert (n_classes self * (buffer_size self / n_classes self)
          = buffer_size self)%Z as Hexact
    by (symmetry; apply Z_div_exact_full_2; [lia | exact Hmod]).
  assert (Z.of_nat (length (replay_buffer
            (set_buffer (rows (buffer_size self) (uniform_draw (rng s))) (tick s))))
          = buffer_size self) as Hlen
    by (simpl; rewrite rows_length; lia).
  split; [exact Hexact|]. split; [exact Hlen|].
  assert (n_classes self ≤ buffer_size self)%Z as Hle.
  { apply Z.divide_pos_le; [lia|]. apply Z.mod_divide; [lia | exact Hmod]. }
  set (s1 := set_buffer (rows (buffer_size self) (uniform_draw (rng s))) (tick s))
    in *.
  destruct (sample_p_0_conditional_ok self y s1) as (samples & Hp & Hl);
    [exact Hu | exact Hn | rewrite Hlen; exact Hle | rewrite Hlen; lia | exact Hy |].
  destruct (class_indices_valid self y s1) as (_ & _ & Hb & _);
    [exact Hn | rewrite Hlen; exact Hle | rewrite Hlen; lia | exact Hy |].
  eexists _, _. split; [exact Hp|]. split; [exact Hl|].
  eapply Forall2_impl; [exact Hb|]. intros i l Hil. rewrite <- Hlen. exact Hil.
Qed.

(** ** A call that cannot fail *)

Lemma langevin_total (score_grad : list T → outcome (nat → T))
    (noise : nat → nat → T) (eta sigma : F) (K g : nat) (positions : list T) :
  (∀ x, is_ok (score_grad x) = true) →
  is_ok (langevin score_grad noise eta sigma K g positions) = true.
Proof.
  intros Hg. revert g positions. induction K as [|K IH]; intros g positions;
    simpl; [reflexivity|].
  specialize (Hg positions). destruct (score_grad positions); [apply IH | discriminate].
Qed.

(** X7.  Without labels, on a buffer that is not empty, with a batch size
    that is not negative and a network that raises nowhere, a call of
    [sample_q] returns: a batch of [sgld_batch_size] rows, after three
    draws of the generator for the initial batch and one for each step. *)
Theorem sample_q_unconditional_returns (self : JEM F) (n_steps : Z)
    (contrast : bool) (s : state) :
  replay_buffer s ≠ [] →
  (0 ≤ sgld_batch_size self)%Z →
  (∀ x, is_ok (energy_gradient contrast false (params s) None x) = true) →
  ∃ s' final,
    sample_q self None n_steps contrast s = (s', Ok final) ∧
    length final = Z.to_nat (sgld_batch_size self) ∧
    rng s' = rng s + 3 + Z.to_nat n_steps ∧
    training s' = true.
Proof.
  intros Hne Hbs Hnet.
  destruct (sample_p_0_unconditional_ok self (sgld_batch_size self)
              (set_training false s) Hne Hbs)
    as (init & inds & Hp & Hlen).
  destruct (sgld_langevin self contrast None (Z.to_nat n_steps) init
              (tick (tick (tick (set_training false s))))) as (s2 & Hl & Hr).
  simpl training in Hl, Hr. simpl params in Hl, Hr.
  pose proof (langevin_total _ randn_draw (sgld_lr self) (sgld_std self)
                (Z.to_nat n_steps) (rng (tick (tick (tick (set_training false s)))))
                init Hnet) as Hok.
  specialize (Hr Hok).
  destruct (langevin _ _ _ _ _ _ _) as [final|e]; [|discriminate].
  destruct (sample_q_ok self None n_steps contrast s _ _ _ _ _ Hp Hl)
    as (s' & Hq & Ht & _ & Hrng & _).
  exists s', final. split; [exact Hq|].
  split; [rewrite (sgld_length _ _ _ _ _ _ _ _ Hl); exact Hlen|].
  split; [|exact Ht]. rewrite Hrng, Hr. simpl. lia.
Qed.

End Draws.

(** * The module around the sampler: properties *)

Section ModuleFacts.
Context {F T P R D : Type} `{!Tensor F T} `{!Torch F T P} `{!Network F T P R D}.

Abbreviation world := (lightning F T P).
Abbreviation L := (@L F T P).

Lemma bindL_run {A B : Type} (m : L A) (k : A → L B) (w : world) :
  (m ≫= k) w =
  match m w with
  | (w', Return a) => k a w'
  | (w', Throw e) => (w', Throw e)
  end.
Proof. reflexivity. Qed.

Lemma bindL_return {A B : Type} (m : L A) (k : A → L B) (w w' : world) (b : B) :
  (m ≫= k) w = (w', Return b) →
  ∃ w1 a, m w = (w1, Return a) ∧ k a w1 = (w', Return b).
Proof.
  rewrite bindL_run. destruct (m w) as [w1 [a|e]]; [eauto | discriminate].
Qed.

Tactic Notation "inv_bindL" hyp(H) "as" ident(w1) ident(a) ident(H1) :=
  apply bindL_return in H as (w1 & a & H1 & H).

Lemma frame_refl (w : world) : frame w w.
Proof. repeat split. Qed.

Lemma frame_trans (w1 w2 w3 : world) : frame w1 w2 → frame w2 w3 → frame w1 w3.
Proof. intros (? & ? & ?) (? & ? & ?). repeat split; congruence. Qed.

Lemma quiet_ret {A : Type} (a : A) : quiet (mret a : L A).
Proof. intros w w' r [= <- <-]. repeat split. Qed.

Lemma quiet_pure {A : Type} (o : outcome A) : quiet (pure o : L A).
Proof. intros w w' r [= <- <-]. repeat split. Qed.

Lemma quiet_local {A : Type} (v : option A) : quiet (local v : L A).
Proof. intros w w' r. unfold local. destruct v; intros [= <- <-]; repeat split. Qed.

Lemma quiet_run_pass {A : Type} (f : bool → P → nat → pass P A) :
  quiet (run_pass f : L A).
Proof. intros w w' r [= <- <-]. repeat split. Qed.

Lemma quiet_bind {A B : Type} (m : L A) (k : A → L B) :
  quiet m → (∀ a, quiet (k a)) → quiet (m ≫= k).
Proof.
  intros Hm Hk w w' r. rewrite bindL_run.
  destruct (m w) as [w1 [a|e]] eqn:E; intros H.
  - destruct (Hm _ _ _ E) as (Hf1 & Ht1 & Hb1).
    destruct (Hk a _ _ _ H) as (Hf2 & Ht2 & Hb2).
    split; [exact (frame_trans _ _ _ Hf1 Hf2)|]. split; congruence.
  - injection H as <- <-. exact (Hm _ _ _ E).
Qed.

Lemma quiet_sampler {A : Type} (m : M A) :
  draws_only m → quiet (sampler m : L A).
Proof.
  intros Hm w w' r. unfold sampler.
  destruct (m (core w)) as [s o] eqn:E. intros [= <- <-].
  destruct (Hm _ _ _ E) as (Ht & _ & Hb & _). simpl.
  repeat split; simpl; congruence.
Qed.

Lemma quiet_model_mean (x : list T) : quiet (model_mean x).
Proof.
  unfold model_mean. apply quiet_bind; [apply quiet_run_pass|].
  intros a. apply quiet_ret.
Qed.

Lemma quiet_compute_energy_reg (self : hparams F) (energy : F) :
  quiet (compute_energy_reg self energy).
Proof. apply quiet_pure. Qed.

(** A call of [sample_q] from the module. *)
Lemma sampler_sample_q (self : JEM F) (y : option (list Z)) (n_steps : Z)
    (contrast : bool) (w w' : world) (r : result (list T)) :
  sampler (sample_q self y n_steps contrast) w = (w', r) →
  frame w w' ∧
  match r with
  | Return _ => training (core w') = true
  | Throw e =>
      training (core w') = false ∧
      replay_buffer (core w') = replay_buffer (core w) ∧ ∃ e', e = Exn e'
  end.
Proof.
  unfold sampler.
  destruct (sample_q self y n_steps contrast (core w)) as [s o] eqn:E.
  intros [= <- <-].
  pose proof (sample_q_training _ _ _ _ _ _ _ E) as Ht.
  destruct (sample_q_buffer _ _ _ _ _ _ _ E) as [Hlen _].
  split; [repeat split; exact Hlen|].
  destruct o as [x|e]; simpl; [exact Ht|].
  split; [exact Ht|]. split; [exact (sample_q_raise_buffer _ _ _ _ _ _ _ E) | eauto].
Qed.

(** ** [compute_losses] *)

(** X8.  With neither of the two sampled losses switched on,
    [compute_losses] never returns: the regulariser reads [fp], which no
    branch has bound, and Python raises [UnboundLocalError] (unless the
    cross-entropy part has raised before); with the cross-entropy loss
    switched off as well, nothing has been touched by then. *)
Theorem compute_losses_needs_sampling (self : hparams F) (x_lab : list T)
    (y_lab : list Z) (x_p_d : list T) (dist : D) (logits : option (list R))
    (w : world) :
  flt fzero (pxsgld self) = false →
  flt fzero (pxysgld self) = false →
  (∃ w' e, compute_losses self x_lab y_lab x_p_d dist logits w = (w', Throw e)) ∧
  (flt fzero (pyxce self) = false →
   compute_losses self x_lab y_lab x_p_d dist logits w = (w, Throw UnboundLocalError)).
Proof.
  intros H1 H2. unfold compute_losses. rewrite H1, H2. split.
  - rewrite bindL_run.
    match goal with
    | |- context [match ?X with pair _ _ => _ end] => destruct X as [w1 [l|e]]
    end; eauto.
  - intros ->. reflexivity.
Qed.

Lemma compute_losses_return_inv (self : hparams F) (x_lab : list T)
    (y_lab : list Z) (x_p_d : list T) (dist : D) (logits : option (list R))
    (w w' : world) (v : F * F * F) :
  compute_losses self x_lab y_lab x_p_d dist logits w = (w', Return v) →
  training (core w') = true ∧ frame w w' ∧
  (flt fzero (pxsgld self) = true ∨ flt fzero (pxysgld self) = true).
Proof.
  intros H. unfold compute_losses in H.
  inv_bindL H as w1 l1 H1.
  assert (frame w w1) as F1.
  { destruct (flt fzero (pyxce self)).
    - revert H1. apply quiet_bind; [|intros a; apply quiet_bind;
        [apply quiet_pure | intros b; apply quiet_ret]].
      destruct logits; [apply quiet_ret | apply quiet_run_pass].
    - injection H1 as <- _. apply frame_refl. }
  clear H1. inv_bindL H as w2 a2 H2. destruct a2 as [l2 fp2].
  assert (frame w1 w2 ∧
          (if flt fzero (pxsgld self)
           then training (core w2) = true
           else w2 = w1 ∧ fp2 = None)) as (F2 & T2).
  { destruct (flt fzero (pxsgld self)).
    - inv_bindL H2 as w3 x_q Hq.
      assert (frame w1 w3 ∧ training (core w3) = true) as (Fq & Tq).
      { destruct (class_cond_p_x_sample self).
        + inv_bindL Hq as w4 u Ha. inv_bindL Hq as w5 y_q Hr.
          destruct (quiet_sampler _ (draws_only_assert _) _ _ _ Ha) as (Fa & _).
          destruct (quiet_sampler _ (draws_only_randint _ _) _ _ _ Hr) as (Fr & _).
          destruct (sampler_sample_q _ _ _ _ _ _ _ Hq) as (Fs & Ts).
          split; [|exact Ts].
          exact (frame_trans _ _ _ Fa (frame_trans _ _ _ Fr Fs)).
        + destruct (sampler_sample_q _ _ _ _ _ _ _ Hq) as (Fs & Ts). auto. }
      inv_bindL H2 as w4 fp Hp. inv_bindL H2 as w5 fq Hf.
      destruct (quiet_model_mean _ _ _ _ Hp) as (Fp & Tp & _).
      destruct (quiet_model_mean _ _ _ _ Hf) as (Ff & Tf & _).
      injection H2 as <- _ _.
      split; [|congruence].
      exact (frame_trans _ _ _ Fq (frame_trans _ _ _ Fp Ff)).
    - injection H2 as <- _ <-. split; [apply frame_refl | auto]. }
  clear H2. inv_bindL H as w3 a3 H3. destruct a3 as [l3 fp3].
  assert (frame w2 w3 ∧
          (if flt fzero (pxysgld self)
           then training (core w3) = true
           else w3 = w2 ∧ fp3 = fp2)) as (F3 & T3).
  { destruct (flt fzero (pxysgld self)).
    - inv_bindL H3 as w4 x_q Hq.
      destruct (sampler_sample_q _ _ _ _ _ _ _ Hq) as (Fs & Ts).
      inv_bindL H3 as w5 fp Hp. inv_bindL H3 as w6 fq Hf.
      destruct (quiet_model_mean _ _ _ _ Hp) as (Fp & Tp & _).
      destruct (quiet_model_mean _ _ _ _ Hf) as (Ff & Tf & _).
      injection H3 as <- _ _.
      split; [|congruence].
      exact (frame_trans _ _ _ Fs (frame_trans _ _ _ Fp Ff)).
    - injection H3 as <- _ <-. split; [apply frame_refl | auto]. }
  clear H3. inv_bindL H as w4 fp Hl.
  unfold local in Hl. destruct fp3 as [fp3|]; [|discriminate].
  injection Hl as <- <-.
  inv_bindL H as w5 reg Hr.
  destruct (quiet_compute_energy_reg _ _ _ _ _ Hr) as (Fr & Tr & _).
  injection H as <- _.
  split; [|split].
  - rewrite Tr. destruct (flt fzero (pxysgld self)); [exact T3|].
    destruct T3 as [-> E3]. destruct (flt fzero (pxsgld self)); [exact T2|].
    destruct T2 as [_ E2]. congruence.
  - exact (frame_trans _ _ _ F1 (frame_trans _ _ _ F2 (frame_trans _ _ _ F3 Fr))).
  - destruct (flt fzero (pxysgld self)); [auto|].
    destruct T3 as [_ E3]. destruct (flt fzero (pxsgld self)); [auto|].
    destruct T2 as [_ E2]. congruence.
Qed.

Lemma framed_quiet {A : Type} (m : L A) : quiet m → framed m.
Proof. intros Hm w w' r H. exact (proj1 (Hm _ _ _ H)). Qed.

Lemma framed_bind {A B : Type} (m : L A) (k : A → L B) :
  framed m → (∀ a, framed (k a)) → framed (m ≫= k).
Proof.
  intros Hm Hk w w' r. rewrite bindL_run.
  destruct (m w) as [w1 [a|e]] eqn:E; intros H.
  - exact (frame_trans _ _ _ (Hm _ _ _ E) (Hk a _ _ _ H)).
  - injection H as <- <-. exact (Hm _ _ _ E).
Qed.

Lemma framed_sample_q (self : JEM F) (y : option (list Z)) (n_steps : Z)
    (contrast : bool) :
  framed (sampler (sample_q self y n_steps contrast) : L (list T)).
Proof. intros w w' r H. exact (proj1 (sampler_sample_q _ _ _ _ _ _ _ H)). Qed.

Lemma framed_compute_losses (self : hparams F) (x_lab : list T) (y_lab : list Z)
    (x_p_d : list T) (dist : D) (logits : option (list R)) :
  framed (compute_losses self x_lab y_lab x_p_d dist logits).
Proof.
  unfold compute_losses.
  repeat first
    [ apply framed_sample_q
    | apply framed_quiet;
      first [ apply quiet_ret | apply quiet_pure | apply quiet_local
            | apply quiet_run_pass | apply quiet_model_mean
            | apply quiet_compute_energy_reg
            | apply quiet_sampler;
              first [apply draws_only_assert | apply draws_only_randint] ]
    | apply framed_bind; [| intros ?]
    | match goal with
      | |- framed (if ?b then _ else _) => destruct b
      | |- framed (match ?o with _ => _ end) => destruct o
      | |- framed (let '(_, _) := ?x in _) => destruct x
      end ].
Qed.

(** X9.  However [compute_losses] ends, the capacity of the buffer, the
    gradient flag and the log are as before.  When it returns, a sample
    has been drawn (one of the two sampled losses is switched on) and the
    network is in training mode, whatever its mode before the call. *)
Theorem compute_losses_returns_training (self : hparams F) (x_lab : list T)
    (y_lab : list Z) (x_p_d : list T) (dist : D) (logits : option (list R))
    (w : world) :
  frame w (fst (compute_losses self x_lab y_lab x_p_d dist logits w)) ∧
  match snd (compute_losses self x_lab y_lab x_p_d dist logits w) with
  | Return _ =>
      training (core (fst (compute_losses self x_lab y_lab x_p_d dist logits w)))
        = true ∧
      (flt fzero (pxsgld self) = true ∨ flt fzero (pxysgld self) = true)
  | Throw _ => True
  end.
Proof.
  destruct (compute_losses self x_lab y_lab x_p_d dist logits w) as [w' r] eqn:E.
  simpl. split; [exact (framed_compute_losses _ _ _ _ _ _ _ _ _ E)|].
  destruct r as [v|e]; [|exact I].
  destruct (compute_losses_return_inv _ _ _ _ _ _ _ _ _ E) as (Ht & _ & Hs).
  split; [exact Ht | exact Hs].
Qed.

(** X10.  With class-conditional sampling of p(x) asked of an
    unconditional model (and the cross-entropy loss switched off),
    [compute_losses] fails its assertion before anything is drawn or
    sampled: no object has changed. *)
Theorem compute_losses_class_cond_unconditional (self : hparams F)
    (x_lab : list T) (y_lab : list Z) (x_p_d : list T) (dist : D)
    (logits : option (list R)) (w : world) :
  flt fzero (pyxce self) = false →
  flt fzero (pxsgld self) = true →
  class_cond_p_x_sample self = true →
  uncond (jem self) = true →
  compute_losses self x_lab y_lab x_p_d dist logits w
    = (w, Throw (Exn AssertionError)).
Proof.
  intros H1 H2 H3 H4. unfold compute_losses. rewrite H1, H2, H3.
  rewrite bindL_run. cbn [mret L_ret]. rewrite bindL_run, bindL_run, bindL_run.
  unfold sampler at 1, py_assert, lift. rewrite H4. destruct w. reflexivity.
Qed.

(** ** [validation_step] *)

(** X11.  A [validation_step] that returns has logged [val_loss] and then
    [val_acc] and nothing else, has left the gradient flag off, and has
    left the network in training mode. *)
Theorem validation_step_returns (self : hparams F)
    (batch : (list T * list Z) * list T) (w w' : world) :
  validation_step self batch w = (w', Return tt) →
  grad_enabled w' = false ∧ training (core w') = true ∧
  ∃ loss acc, logged w' = logged w ++ [("val_loss", loss); ("val_acc", acc)].
Proof.
  destruct batch as [[x_lab y_lab] x_p_d]. unfold validation_step. intros H.
  inv_bindL H as w1 dist Hd. injection Hd as <- _.
  inv_bindL H as w2 logits Hf.
  destruct (quiet_run_pass _ _ _ _ Hf) as ((_ & _ & Hlog2) & _). clear Hf.
  inv_bindL H as w3 u Hg. injection Hg as <- _.
  inv_bindL H as w4 losses Hc.
  destruct (compute_losses_return_inv _ _ _ _ _ _ _ _ _ Hc) as (Ht & (_ & _ & Hlog4) & _).
  simpl in Hlog4. clear Hc.
  inv_bindL H as w5 u5 Hg. injection Hg as <- _.
  inv_bindL H as w6 u6 Hl. injection Hl as <- _.
  inv_bindL H as w7 acc Ha. injection Ha as <- _.
  injection H as <-. simpl.
  split; [reflexivity|]. split; [exact Ht|].
  exists (sum_losses losses), acc. rewrite Hlog4, Hlog2, <- app_assoc. reflexivity.
Qed.

(** X12.  When the label smoothing, the classifier and the accuracy raise
    nothing, a [validation_step] that exits by an exception has raised it
    in [compute_losses], and leaves the gradient flag on:
    [torch.set_grad_enabled(False)] is not reached. *)
Theorem validation_step_failure (self : hparams F) (x_lab : list T)
    (y_lab : list Z) (x_p_d : list T) (w w' : world) (e : error) :
  is_ok (smooth_one_hot y_lab (n_classes (jem self)) (smoothing self)) = true →
  (∀ t p g, is_ok (out (classify t p g x_lab)) = true) →
  (∀ logits, is_ok (accuracy y_lab logits) = true) →
  validation_step self ((x_lab, y_lab), x_p_d) w = (w', Throw e) →
  grad_enabled w' = true.
Proof.
  intros Hs Hc Ha. unfold validation_step. rewrite bindL_run. unfold pure at 1.
  destruct (smooth_one_hot _ _ _) as [dist|]; [|discriminate]. cbn [to_result].
  rewrite bindL_run. unfold JEM_forward, run_pass at 1.
  specialize (Hc (training (core w)) (params (core w)) (rng (core w))).
  destruct (out (classify _ _ _ x_lab)) as [logits|]; [|discriminate].
  cbn [to_result]. rewrite bindL_run. unfold set_grad_enabled at 1.
  rewrite bindL_run.
  match goal with
  | |- context [compute_losses ?a ?b ?c ?d ?e ?f ?w0] =>
      destruct (compute_losses a b c d e f w0) as [w4 [losses|e4]] eqn:E
  end.
  - rewrite bindL_run. unfold set_grad_enabled at 1.
    rewrite bindL_run. unfold log at 1. rewrite bindL_run. unfold pure at 1.
    specialize (Ha logits). destruct (accuracy y_lab logits); [|discriminate].
    cbn [to_result]. unfold log. discriminate.
  - intros [= <- _]. destruct (framed_compute_losses _ _ _ _ _ _ _ _ _ E) as (_ & Hg & _).
    exact Hg.
Qed.

(** ** [get_gt_preds] and [ood_detect] *)

Lemma quiet_for_batches {A : Type} (f : list T → L A)
    (loader : list (list T * list Z)) :
  (∀ x, quiet (f x)) → quiet (for_batches f loader).
Proof.
  intros Hf. induction loader as [|[x y] loader IH]; simpl; [apply quiet_ret|].
  apply quiet_bind; [apply Hf|]. intros a.
  apply quiet_bind; [exact IH|]. intros rest. apply quiet_ret.
Qed.

(** The loop over the batches gives one value per batch, in the order of
    the loader, each the value of a pass of the network in the mode it has
    on entry. *)
Lemma for_batches_pass {A : Type} (f : bool → P → nat → list T → pass P A)
    (loader : list (list T * list Z)) (w w' : world) (l : list A) :
  for_batches (λ x, run_pass (λ t p g, f t p g x)) loader w = (w', Return l) →
  Forall2 (λ a b, ∃ p g, out (f (training (core w)) p g b.1) = Ok a) l loader.
Proof.
  revert w w' l. induction loader as [|[x y] loader IH]; intros w w' l; simpl.
  - intros [= _ <-]. constructor.
  - intros H. inv_bindL H as w1 a Hp. inv_bindL H as w2 rest Hr.
    injection H as _ <-.
    pose proof (quiet_run_pass _ _ _ _ Hp) as (_ & Ht & _).
    apply IH in Hr. rewrite Ht in Hr.
    constructor; [|exact Hr]. simpl.
    unfold run_pass in Hp. injection Hp as _ Hp.
    exists (params (core w)), (rng (core w)).
    destruct (out (f _ _ _ x)); [|discriminate]. by injection Hp as ->.
Qed.

Lemma ood_detect_run (loader : list (list T * list Z)) (w : world) :
  ood_detect loader w =
  (for_batches (λ x, run_pass (λ t p g, forward t p g x)) loader
     ≫= λ scores, pure (torch_cat scores)
     ≫= λ p_x, mret ({["p(x)" := p_x]} : gmap string (list F))) (evaluating w).
Proof. reflexivity. Qed.

Lemma get_gt_preds_run (loader : list (list T * list Z)) (w : world) :
  get_gt_preds loader w =
  (for_batches JEM_forward loader
     ≫= λ preds, pure (torch_cat (map snd loader))
     ≫= λ gt, pure (torch_cat preds)
     ≫= λ preds, mret (gt, preds)) (evaluating w).
Proof. reflexivity. Qed.

(** X13.  However they end, [ood_detect] and [get_gt_preds] leave the
    network in evaluation mode and the gradient flag off (neither restores
    what was there before), and the buffer and the log as they were. *)
Theorem evaluation_leaves_eval_mode (loader : list (list T * list Z)) (w : world) :
  (training (core (fst (ood_detect loader w))) = false ∧
   grad_enabled (fst (ood_detect loader w)) = false ∧
   replay_buffer (core (fst (ood_detect loader w))) = replay_buffer (core w) ∧
   logged (fst (ood_detect loader w)) = logged w) ∧
  (training (core (fst (get_gt_preds loader w))) = false ∧
   grad_enabled (fst (get_gt_preds loader w)) = false ∧
   replay_buffer (core (fst (get_gt_preds loader w))) = replay_buffer (core w) ∧
   logged (fst (get_gt_preds loader w)) = logged w).
Proof.
  split.
  - rewrite ood_detect_run.
    match goal with |- context [fst (?m (evaluating w))] =>
      destruct (m (evaluating w)) as [w' r] eqn:E;
      assert (quiet m) as Hq
    end.
    { apply quiet_bind; [apply quiet_for_batches; intros x; apply quiet_run_pass|].
      intros a. apply quiet_bind; [apply quiet_pure | intros b; apply quiet_ret]. }
    destruct (Hq _ _ _ E) as ((_ & Hg & Hl) & Ht & Hb). simpl. auto.
  - rewrite get_gt_preds_run.
    match goal with |- context [fst (?m (evaluating w))] =>
      destruct (m (evaluating w)) as [w' r] eqn:E;
      assert (quiet m) as Hq
    end.
    { apply quiet_bind; [apply quiet_for_batches; intros x; apply quiet_run_pass|].
      intros a. apply quiet_bind; [apply quiet_pure | intros b].
      apply quiet_bind; [apply quiet_pure | intros c; apply quiet_ret]. }
    destruct (Hq _ _ _ E) as ((_ & Hg & Hl) & Ht & Hb). simpl. auto.
Qed.

(** X14.  On an empty loader [ood_detect] raises torch's [RuntimeError]
    for a concatenation of no tensors.  When it returns, the loader was
    not empty and the result is a dictionary with the one key [p(x)],
    which holds the concatenation of one tensor of scores per batch, in
    the order of the loader, each computed by the network in evaluation
    mode. *)
Theorem ood_detect_scores (loader : list (list T * list Z)) (w w' : world)
    (uncert : gmap string (list F)) :
  ood_detect [] w = (evaluating w, Throw (Exn RuntimeError)) ∧
  (ood_detect loader w = (w', Return uncert) →
   loader ≠ [] ∧
   ∃ scores,
     uncert = {["p(x)" := concat scores]} ∧
     Forall2 (λ sc b, ∃ p g, out (forward false p g b.1) = Ok sc) scores loader).
Proof.
  split; [reflexivity|].
  rewrite ood_detect_run. intros H.
  inv_bindL H as w1 scores Hs. inv_bindL H as w2 p_x Hc.
  injection H as _ <-.
  apply for_batches_pass in Hs. simpl in Hs.
  unfold pure, torch_cat in Hc. destruct scores as [|sc scores]; [discriminate|].
  injection Hc as _ <-.
  split; [intros ->; inversion Hs|].
  exists (sc :: scores). split; [reflexivity | exact Hs].
Qed.

(** X15.  On an empty loader [get_gt_preds] raises torch's
    [RuntimeError].  When it returns, the loader was not empty, the ground
    truth is the concatenation of the label batches in the order of the
    loader, and the predictions are the concatenation of one batch of
    logits per batch of the loader, computed in evaluation mode. *)
Theorem get_gt_preds_labels (loader : list (list T * list Z)) (w w' : world)
    (gt : list Z) (preds : list R) :
  get_gt_preds [] w = (evaluating w, Throw (Exn RuntimeError)) ∧
  (get_gt_preds loader w = (w', Return (gt, preds)) →
   loader ≠ [] ∧ gt = concat (map snd loader) ∧
   ∃ rows,
     preds = concat rows ∧
     Forall2 (λ r b, ∃ p g, out (classify false p g b.1) = Ok r) rows loader).
Proof.
  split; [reflexivity|].
  rewrite get_gt_preds_run. intros H.
  inv_bindL H as w1 rows Hs. inv_bindL H as w2 gt' Hg. inv_bindL H as w3 preds' Hc.
  injection H as _ <- <-.
  apply (for_batches_pass classify) in Hs. simpl in Hs.
  unfold pure, torch_cat in Hg, Hc.
  destruct loader as [|b loader]; [discriminate|].
  destruct rows as [|r rows]; [discriminate|].
  injection Hg as _ <-. injection Hc as _ <-.
  split; [discriminate|]. split; [reflexivity|].
  exists (r :: rows). split; [reflexivity | exact Hs].
Qed.

End ModuleFacts.

(** * The class counts: properties *)

Section SetupFacts.

Lemma index_get_lookup {T : Type} (buf : list T) (inds : list Z) (vs : list T)
    (k : nat) (i : Z) :
  index_get buf inds = Ok vs → inds !! k = Some i →
  slot (length buf) i ≫= (buf !!.) = vs !! k.
Proof.
  revert vs k. induction inds as [|i0 inds IH]; intros vs k; simpl; [done|].
  destruct (slot (length buf) i0 ≫= _) as [v|] eqn:E; [|discriminate].
  destruct (index_get buf inds) as [vs'|]; [|discriminate].
  intros [= <-] Hk. destruct k as [|k]; simpl in *.
  - injection Hk as <-. exact E.
  - by apply IH.
Qed.

Lemma batch_has_true (n c : nat) (y : list Z) :
  batch_has n c y = true ↔ ∃ l, l ∈ y ∧ slot n l = Some c.
Proof.
  unfold batch_has. rewrite existsb_exists. split.
  - intros (l & Hl & Hs). apply bool_decide_eq_true in Hs.
    exists l. split; [by apply list_elem_of_In | exact Hs].
  - intros (l & Hl & Hs). exists l. split; [by apply list_elem_of_In|].
    by apply bool_decide_eq_true.
Qed.

(** One batch adds one to the count of every class that it holds,
    whether once or several times, and to no other. *)
Lemma count_batch_lookup (class_counts class_counts' y : list Z) (c : nat) :
  count_batch class_counts y = Ok class_counts' →
  length class_counts' = length class_counts ∧
  class_counts' !! c =
    (λ v, if batch_has (length class_counts) c y then f32_succ v else v)
      <$> class_counts !! c.
Proof.
  unfold count_batch. destruct (index_get class_counts y) as [read|] eqn:Hget;
    [|discriminate].
  intros Hput. split; [exact (index_put_length _ _ _ _ Hput)|].
  destruct (batch_has (length class_counts) c y) eqn:Hb.
  - apply batch_has_true in Hb as (l & Hl & Hs).
    destruct (index_put_written _ _ _ _ _ Hput Hl) as (k & l' & v & Hk & Hs' & Hv & Hr).
    rewrite Hs in Hs', Hr. simpl in Hr. rewrite Hr.
    pose proof (index_get_lookup _ _ _ _ _ Hget Hk) as Hread.
    rewrite Hs' in Hread. simpl in Hread.
    change (map f32_succ read) with (f32_succ <$> read) in Hv.
    rewrite list_lookup_fmap in Hv. rewrite Hread.
    destruct (read !! k); [|discriminate]. simpl in *. congruence.
  - rewrite (index_put_other _ _ _ _ c Hput).
    + destruct (class_counts !! c); reflexivity.
    + intros l Hl Hs. apply not_true_iff_false in Hb. apply Hb.
      apply batch_has_true. eauto.
Qed.

Lemma count_batches_lookup (train_loader : list (list Z))
    (class_counts class_counts' : list Z) (c : nat) :
  count_batches class_counts train_loader = Ok class_counts' →
  length class_counts' = length class_counts ∧
  class_counts' !! c =
    Nat.iter (batches_with (length class_counts) c train_loader) f32_succ
      <$> class_counts !! c.
Proof.
  revert class_counts. induction train_loader as [|y train_loader IH];
    intros class_counts; simpl.
  - intros [= <-]. split; [reflexivity|]. by destruct (class_counts !! c).
  - destruct (count_batch class_counts y) as [counts1|] eqn:E; [|discriminate].
    intros H. destruct (count_batch_lookup _ _ _ c E) as [Hlen1 Hc1].
    destruct (IH _ H) as [Hlen Hc]. split; [congruence|].
    rewrite Hc, Hc1, Hlen1. destruct (class_counts !! c) as [v|]; [|reflexivity].
    simpl. f_equal. destruct (batch_has (length class_counts) c y); simpl.
    + symmetry. exact (Nat.iter_succ_r _ f32_succ v).
    + reflexivity.
Qed.

Lemma f32_succ_iter (k : nat) :
  Nat.iter k f32_succ 0%Z = Z.min (2 ^ 24) (Z.of_nat k).
Proof.
  induction k as [|k IH]; [reflexivity|].
  rewrite Nat.iter_succ, IH. unfold f32_succ.
  destruct (Z.min (2 ^ 24) (Z.of_nat k) <? 2 ^ 24)%Z eqn:E;
    [apply Z.ltb_lt in E | apply Z.ltb_ge in E]; lia.
Qed.

(** X16.  After [setup] the count of class [c] is the number of batches
    of the loader in which a label of class [c] occurs, not the number of
    samples of that class: a class that occurs several times in a batch
    is counted once for that batch.  (A count stops at 2^24, where
    [float32] no longer counts.) *)
Theorem setup_counts_batches {Fl : Type} (f32_div : Z → Z → Fl) (n_classes : Z)
    (train_loader : list (list Z)) (dataset_len : Z)
    (class_counts : list Z) (p_y : list Fl) (c : nat) :
  VERAPosteriorNet_setup f32_div n_classes train_loader dataset_len
    = Ok (class_counts, p_y) →
  c < Z.to_nat n_classes →
  class_counts !! c =
    Some (Z.min (2 ^ 24)
            (Z.of_nat (batches_with (Z.to_nat n_classes) c train_loader))).
Proof.
  unfold VERAPosteriorNet_setup. destruct (n_classes <? 0)%Z; [discriminate|].
  destruct (count_batches _ train_loader) as [counts|] eqn:E; [|discriminate].
  intros [= <- _] Hc.
  destruct (count_batches_lookup _ _ _ c E) as [_ Hl].
  rewrite Hl, length_replicate, lookup_replicate_2 by exact Hc.
  simpl. by rewrite f32_succ_iter.
Qed.

Lemma slot_is_Some_iff (len : nat) (i : Z) :
  is_Some (slot len i) ↔ (- Z.of_nat len ≤ i < Z.of_nat len)%Z.
Proof.
  unfold slot. destruct (- Z.of_nat len <=? i)%Z eqn:E1;
    [apply Z.leb_le in E1 | apply Z.leb_gt in E1];
    (destruct (i <? Z.of_nat len)%Z eqn:E2;
       [apply Z.ltb_lt in E2 | apply Z.ltb_ge in E2]); simpl;
    (split; [intros [k Hk]; try discriminate; lia | intros H; try lia; eauto]).
Qed.

Lemma count_batch_ok (class_counts y : list Z) :
  (∃ class_counts', count_batch class_counts y = Ok class_counts') ↔
  Forall (λ l, - Z.of_nat (length class_counts) ≤ l
               < Z.of_nat (length class_counts))%Z y.
Proof.
  unfold count_batch. split.
  - intros [c' H]. destruct (index_get class_counts y) as [read|] eqn:Hget;
      [|discriminate].
    apply index_get_valid in Hget. eapply Forall_impl; [exact Hget|].
    intros l Hl. by apply slot_is_Some_iff.
  - intros Hy.
    assert (Forall (λ l, is_Some (slot (length class_counts) l)) y) as Hv.
    { eapply Forall_impl; [exact Hy|]. intros l Hl. by apply slot_is_Some_iff. }
    destruct (index_get_total _ _ Hv) as [read Hget]. rewrite Hget.
    apply (index_put_after_get _ _ read); [exact Hget|].
    rewrite length_map. exact (index_get_length _ _ _ Hget).
Qed.

Lemma count_batch_raise (class_counts y : list Z) (e : exn) :
  count_batch class_counts y = Raise e → e = IndexError.
Proof.
  unfold count_batch. destruct (index_get class_counts y) as [read|e'] eqn:Hget.
  - intros H.
    destruct (index_put_after_get class_counts y read (map f32_succ read) Hget)
      as [c' Hc'].
    { rewrite length_map. exact (index_get_length _ _ _ Hget). }
    congruence.
  - intros [= <-]. exact (index_get_raise _ _ _ Hget).
Qed.

Lemma count_batches_ok (train_loader : list (list Z)) (class_counts : list Z) :
  match count_batches class_counts train_loader with
  | Ok _ =>
      Forall (Forall (λ l, - Z.of_nat (length class_counts) ≤ l
                           < Z.of_nat (length class_counts))%Z) train_loader
  | Raise e =>
      e = IndexError ∧
      ¬ Forall (Forall (λ l, - Z.of_nat (length class_counts) ≤ l
                             < Z.of_nat (length class_counts))%Z) train_loader
  end.
Proof.
  revert class_counts. induction train_loader as [|y train_loader IH];
    intros class_counts; simpl; [constructor|].
  destruct (count_batch class_counts y) as [counts1|e] eqn:E.
  - assert (Forall (λ l, - Z.of_nat (length class_counts) ≤ l
                         < Z.of_nat (length class_counts))%Z y) as Hy
      by (apply count_batch_ok; eauto).
    destruct (count_batch_lookup _ _ _ 0 E) as [Hlen _].
    specialize (IH counts1). rewrite Hlen in IH.
    destruct (count_batches counts1 train_loader) as [c'|e].
    + by constructor.
    + destruct IH as [-> Hno]. split; [reflexivity|].
      intros Hall. apply Hno. by inversion Hall.
  - split; [exact (count_batch_raise _ _ _ E)|].
    intros Hall. inversion Hall as [|? ? Hy _]; subst.
    apply count_batch_ok in Hy as [c' Hc']. congruence.
Qed.

(** X17.  For a class count that is not negative, [setup] returns exactly
    when every label of every batch lies in [-n_classes, n_classes), and
    the only exception it raises otherwise is [IndexError]. *)
Theorem setup_label_range {Fl : Type} (f32_div : Z → Z → Fl) (n_classes : Z)
    (train_loader : list (list Z)) (dataset_len : Z) :
  (0 ≤ n_classes)%Z →
  match VERAPosteriorNet_setup f32_div n_classes train_loader dataset_len with
  | Ok (class_counts, p_y) =>
      Forall (Forall (λ l, - n_classes ≤ l < n_classes)%Z) train_loader ∧
      Z.of_nat (length class_counts) = n_classes ∧
      length p_y = length class_counts
  | Raise e =>
      e = IndexError ∧
      ¬ Forall (Forall (λ l, - n_classes ≤ l < n_classes)%Z) train_loader
  end.
Proof.
  intros Hn. unfold VERAPosteriorNet_setup.
  replace (n_classes <? 0)%Z with false by (symmetry; apply Z.ltb_ge; lia).
  pose proof (count_batches_ok train_loader (replicate (Z.to_nat n_classes) 0%Z))
    as H.
  rewrite length_replicate, Z2Nat.id in H by exact Hn.
  destruct (count_batches _ train_loader) as [counts|e] eqn:E; [|exact H].
  split; [exact H|].
  destruct (count_batches_lookup _ _ _ 0 E) as [Hlen _].
  rewrite length_replicate in Hlen. rewrite length_map. split; [lia | reflexivity].
Qed.

End SetupFacts.

(** * The further properties at work in the small world *)

Lemma sample_p_0_unconditional_witness :
  ∃ samples inds,
    Toy.run_p_0 Toy.world_own_slot Toy.jem2 2 None (Toy.st true Toy.buf2)
      = (Build_state true tt Toy.buf2 3, Ok (samples, inds)) ∧
    length samples = 2 ∧ length inds = 2 ∧
    Forall (λ i, 0 ≤ i < 2)%Z inds.
Proof.
  destruct (sample_p_0_unconditional (Tensor0 := Toy.tensor)
              (Torch0 := Toy.world_own_slot) Toy.jem2 2 (Toy.st true Toy.buf2))
    as (samples & inds & Hp & Hs & Hi & Hr); [discriminate | lia |].
  exists samples, inds. split; [exact Hp|]. split; [exact Hs|].
  split; [exact Hi | exact Hr].
Defined.

Lemma sample_p_0_conditional_witness :
  ∃ samples inds,
    Toy.run_p_0 Toy.world_own_slot (ToyModule.jem4 false) 2 (Some [0; 1]%Z)
        (Toy.st true ToyModule.buf4)
      = (Build_state true tt ToyModule.buf4 3, Ok (samples, inds)) ∧
    length samples = 2 ∧
    Forall2 (λ i l, l * (4 / 2) ≤ i < (l + 1) * (4 / 2))%Z inds [0; 1]%Z.
Proof.
  destruct (sample_p_0_conditional (Tensor0 := Toy.tensor)
              (Torch0 := Toy.world_own_slot) (ToyModule.jem4 false) [0; 1]%Z
              (Toy.st true ToyModule.buf4))
    as (samples & inds & Hp & Hs & Hb).
  - reflexivity.
  - reflexivity.
  - vm_compute. discriminate.
  - vm_compute. reflexivity.
  - repeat constructor; simpl; lia.
  - exists samples, inds. split; [exact Hp|]. split; [exact Hs | exact Hb].
Defined.

Lemma sample_p_0_label_out_of_range_witness :
  Toy.run_p_0 Toy.world_own_slot (ToyModule.jem4 false) 2 (Some [0; 2]%Z)
      (Toy.st true ToyModule.buf4)
    = (Build_state true tt ToyModule.buf4 1, Raise IndexError).
Proof.
  refine (sample_p_0_label_out_of_range (Tensor0 := Toy.tensor)
            (Torch0 := Toy.world_own_slot) (ToyModule.jem4 false) [0; 2]%Z
            (Toy.st true ToyModule.buf4) _ _ _ _ _ _ _).
  - discriminate.
  - reflexivity.
  - reflexivity.
  - exists 2%Z. reflexivity.
  - vm_compute. reflexivity.
  - repeat constructor; vm_compute; discriminate.
  - right. left. right. simpl. lia.
Defined.


Lemma sample_p_0_labels_unconditional_witness :
  Toy.run_p_0 Toy.world_own_slot (ToyModule.jem4 true) 2 (Some [0; 1]%Z)
      (Toy.st true ToyModule.buf4)
    = (Build_state true tt ToyModule.buf4 1, Raise AssertionError).
Proof.
  refine (sample_p_0_labels_unconditional (Tensor0 := Toy.tensor)
            (Torch0 := Toy.world_own_slot) (ToyModule.jem4 true) [0; 1]%Z
            (Toy.st true ToyModule.buf4) _ _ _).
  - discriminate.
  - reflexivity.
  - vm_compute. split; [reflexivity | discriminate].
Defined.

Lemma JEM_init_then_sample_witness :
  (2 * (4 / 2) = 4)%Z ∧
  ∃ samples inds,
    Toy.run_p_0 Toy.world_own_slot (ToyModule.jem4 false) 2 (Some [1; 0]%Z)
        (Build_state true tt [Some 100; Some 101; Some 102; Some 103]%Z 1)
      = (Build_state true tt [Some 100; Some 101; Some 102; Some 103]%Z 4,
         Ok (samples, inds)) ∧
    Forall2 (λ i l, l * (4 / 2) ≤ i < (l + 1) * (4 / 2))%Z inds [1; 0]%Z.
Proof.
  assert (Toy.run_init Toy.world_own_slot (ToyModule.jem4 false) (Toy.st true [])
          = (Build_state true tt [Some 100; Some 101; Some 102; Some 103]%Z 1, Ok tt))
    as Hi by (vm_compute; reflexivity).
  destruct (JEM_init_then_sample (Tensor0 := Toy.tensor)
              (Torch0 := Toy.world_own_slot) (ToyModule.jem4 false) [1; 0]%Z
              (Toy.st true [])
              (Build_state true tt [Some 100; Some 101; Some 102; Some 103]%Z 1)
              eq_refl eq_refl)
    as (He & _ & samples & inds & Hp & _ & Hb); [ | exact Hi | | ].
  - vm_compute. split; reflexivity.
  - repeat constructor; simpl; lia.
  - split; [exact He|]. exists samples, inds. split; [exact Hp | exact Hb].
Defined.

Lemma sample_q_unconditional_returns_witness :
  ∃ s' final,
    Toy.run_q Toy.world_own_slot Toy.jem2 None 3 false (Toy.st false Toy.buf2)
      = (s', Ok final) ∧
    length final = 2 ∧ rng s' = 6 ∧ training s' = true.
Proof.
  destruct (sample_q_unconditional_returns (Tensor0 := Toy.tensor)
              (Torch0 := Toy.world_own_slot) Toy.jem2 3 false
              (Toy.st false Toy.buf2))
    as (s' & final & Hq & Hl & Hr & Ht);
    [discriminate | vm_compute; discriminate | |].
  - intros x. reflexivity.
  - exists s', final. split; [exact Hq|]. split; [exact Hl|].
    split; [exact Hr | exact Ht].
Defined.

Lemma compute_losses_needs_sampling_witness :
  ToyModule.run_losses Toy.world_own_slot (ToyModule.hp true 0 0 0 false)
      [Some 1; Some 2]%Z [0; 0]%Z [Some 3; Some 4]%Z tt None
      (ToyModule.world true false)
    = (ToyModule.world true false, Throw UnboundLocalError).
Proof.
  refine (proj2 (compute_losses_needs_sampling (Tensor0 := Toy.tensor)
                   (Torch0 := Toy.world_own_slot) (Network0 := ToyModule.network)
                   (ToyModule.hp true 0 0 0 false) _ _ _ tt None
                   (ToyModule.world true false) _ _) _); reflexivity.
Defined.

Lemma compute_losses_returns_training_witness :
  ToyModule.run_losses Toy.world_own_slot (ToyModule.hp true 0 1 0 false)
      [Some 1; Some 2]%Z [0; 0]%Z [Some 3; Some 4]%Z tt None
      (ToyModule.world false true)
    = (Build_lightning (Build_state true tt [Some 10; Some 23]%Z 6) true [],
       Return (0, 26, 0)%Z) ∧
  training (Build_state true tt [Some 10; Some 23]%Z 6) = true.
Proof.
  assert (ToyModule.run_losses Toy.world_own_slot (ToyModule.hp true 0 1 0 false)
            [Some 1; Some 2]%Z [0; 0]%Z [Some 3; Some 4]%Z tt None
            (ToyModule.world false true)
          = (Build_lightning (Build_state true tt [Some 10; Some 23]%Z 6) true [],
             Return (0, 26, 0)%Z)) as H by (vm_compute; reflexivity).
  split; [exact H|].
  pose proof (proj2 (compute_losses_returns_training (Tensor0 := Toy.tensor)
                       (Torch0 := Toy.world_own_slot)
                       (Network0 := ToyModule.network)
                       (ToyModule.hp true 0 1 0 false) [Some 1; Some 2]%Z [0; 0]%Z
                       [Some 3; Some 4]%Z tt None (ToyModule.world false true)))
    as Hr.
  fold (ToyModule.run_losses Toy.world_own_slot) in Hr. rewrite H in Hr.
  exact (proj1 Hr).
Defined.

Lemma compute_losses_class_cond_unconditional_witness :
  ToyModule.run_losses Toy.world_own_slot (ToyModule.hp true 0 1 0 true)
      [Some 1; Some 2]%Z [0; 0]%Z [Some 3; Some 4]%Z tt None
      (ToyModule.world true false)
    = (ToyModule.world true false, Throw (Exn AssertionError)).
Proof.
  refine (compute_losses_class_cond_unconditional (Tensor0 := Toy.tensor)
            (Torch0 := Toy.world_own_slot) (Network0 := ToyModule.network)
            (ToyModule.hp true 0 1 0 true) _ _ _ tt None
            (ToyModule.world true false) _ _ _ _); reflexivity.
Defined.

Lemma validation_step_returns_witness :
  ToyModule.run_validation Toy.world_own_slot (ToyModule.hp true 0 1 0 false)
      ToyModule.batch (ToyModule.world false false)
    = (Build_lightning (Build_state true tt [Some 10; Some 23]%Z 6) false
         [("val_loss", 26%Z); ("val_acc", 1%Z)], Return tt) ∧
  training (Build_state true tt [Some 10; Some 23]%Z 6) = true.
Proof.
  assert (ToyModule.run_validation Toy.world_own_slot
            (ToyModule.hp true 0 1 0 false) ToyModule.batch
            (ToyModule.world false false)
          = (Build_lightning (Build_state true tt [Some 10; Some 23]%Z 6) false
               [("val_loss", 26%Z); ("val_acc", 1%Z)], Return tt)) as H
    by (vm_compute; reflexivity).
  split; [exact H|].
  exact (proj1 (proj2 (validation_step_returns (Tensor0 := Toy.tensor)
                         (Torch0 := Toy.world_own_slot)
                         (Network0 := ToyModule.network)
                         (ToyModule.hp true 0 1 0 false) ToyModule.batch
                         (ToyModule.world false false) _ H))).
Defined.

Lemma validation_step_failure_witness :
  ToyModule.run_validation Toy.world_raise (ToyModule.hp true 0 1 0 false)
      ToyModule.batch (ToyModule.world false false)
    = (Build_lightning (Build_state false tt Toy.buf2 3) true [],
       Throw (Exn ModelError)) ∧
  grad_enabled
    (Build_lightning (F := Z) (Build_state false tt Toy.buf2 3) true []) = true.
Proof.
  assert (ToyModule.run_validation Toy.world_raise (ToyModule.hp true 0 1 0 false)
            ToyModule.batch (ToyModule.world false false)
          = (Build_lightning (Build_state false tt Toy.buf2 3) true [],
             Throw (Exn ModelError))) as H by (vm_compute; reflexivity).
  split; [exact H|].
  refine (validation_step_failure (Tensor0 := Toy.tensor)
            (Torch0 := Toy.world_raise) (Network0 := ToyModule.network)
            (ToyModule.hp true 0 1 0 false) [Some 1; Some 2]%Z [0; 0]%Z
            [Some 3; Some 4]%Z (ToyModule.world false false) _ _ _ _ _ H).
  - reflexivity.
  - intros t p g. reflexivity.
  - intros logits. reflexivity.
Defined.

Lemma ood_detect_scores_witness :
  ToyModule.run_ood_detect ToyModule.loader (ToyModule.world true true)
    = (Build_lightning (Build_state false tt Toy.buf2 0) false [],
       Return {["p(x)" := [1; 2; 3]%Z]}) ∧
  ToyModule.loader ≠ [].
Proof.
  assert (ToyModule.run_ood_detect ToyModule.loader (ToyModule.world true true)
          = (Build_lightning (Build_state false tt Toy.buf2 0) false [],
             Return {["p(x)" := [1; 2; 3]%Z]})) as H by reflexivity.
  split; [exact H|].
  exact (proj1 (proj2 (ood_detect_scores (Network0 := ToyModule.network)
                         ToyModule.loader (ToyModule.world true true) _ _) H)).
Defined.

Lemma get_gt_preds_labels_witness :
  ToyModule.run_get_gt_preds ToyModule.loader (ToyModule.world true true)
    = (Build_lightning (Build_state false tt Toy.buf2 0) false [],
       Return ([0; 1; 1]%Z, [0; 0; 0]%Z)) ∧
  [0; 1; 1]%Z = concat (map snd ToyModule.loader).
Proof.
  assert (ToyModule.run_get_gt_preds ToyModule.loader (ToyModule.world true true)
          = (Build_lightning (Build_state false tt Toy.buf2 0) false [],
             Return ([0; 1; 1]%Z, [0; 0; 0]%Z))) as H by reflexivity.
  split; [exact H|].
  exact (proj1 (proj2 (proj2 (get_gt_preds_labels (Network0 := ToyModule.network)
                                ToyModule.loader (ToyModule.world true true)
                                _ _ _) H))).
Defined.

(** Three samples of class 0, three of class 1 and two of class 2, the
    last of them under the label [-1]: the counts are two, two and one. *)
Lemma setup_counts_batches_witness :
  VERAPosteriorNet_setup (λ c n, (c, n)) 3
      [[0; 0; 1]; [1; 1]; [2; 0; -1]]%Z 8
    = Ok ([2; 2; 1]%Z, [(2, 8); (2, 8); (1, 8)]%Z) ∧
  [2; 2; 1]%Z !! 0 = Some (Z.min (2 ^ 24) 2).
Proof.
  assert (VERAPosteriorNet_setup (λ c n, (c, n)) 3
            [[0; 0; 1]; [1; 1]; [2; 0; -1]]%Z 8
          = Ok ([2; 2; 1]%Z, [(2, 8); (2, 8); (1, 8)]%Z)) as H
    by (vm_compute; reflexivity).
  split; [exact H|].
  refine (setup_counts_batches _ 3 _ 8 _ _ 0 H _). vm_compute. lia.
Defined.

Lemma setup_label_range_witness :
  VERAPosteriorNet_setup (λ c n, (c, n)) 3 [[0; 0; 1]; [3]]%Z 8
    = Raise IndexError ∧
  ¬ Forall (Forall (λ l, - 3 ≤ l < 3)%Z) [[0; 0; 1]; [3]]%Z.
Proof.
  pose proof (setup_label_range (λ c n : Z, (c, n)) 3 [[0; 0; 1]; [3]]%Z 8) as H.
  assert (VERAPosteriorNet_setup (λ c n, (c, n)) 3 [[0; 0; 1]; [3]]%Z 8
          = Raise IndexError) as E by (vm_compute; reflexivity).
  rewrite E in H. split; [reflexivity|]. apply H. lia.
Defined.

(** * The normalizing flow: properties *)

Section FlowFacts.
Context {V J : Type} `{!Pyro V J}.

Lemma build_list_length {A : Type} (make : nat → outcome A) (range : list nat)
    (l : list A) :
  build_list make range = Built l → length l = length range.
Proof.
  revert l. induction range as [|k range IH]; intros l; simpl.
  - intros [= <-]. reflexivity.
  - destruct (make k); [|discriminate].
    destruct (build_list make range); [|discriminate|discriminate].
    intros [= <-]. simpl. f_equal. by apply IH.
Qed.

Lemma build_list_implemented {A : Type} (make : nat → outcome A)
    (range : list nat) :
  build_list make range ≠ NotImplementedError.
Proof.
  induction range as [|k range IH]; simpl; [discriminate|].
  destruct (make k); [|discriminate].
  destruct (build_list make range); [discriminate | done | discriminate].
Qed.

Lemma build_list_total {A : Type} (f : nat → A) (range : list nat) :
  build_list (λ k, Ok (f k)) range = Built (map f range).
Proof.
  induction range as [|k range IH]; simpl; [reflexivity|]. by rewrite IH.
Qed.

(** X18.  For a dimension that is not negative, the constructor of the
    flow raises [NotImplementedError] exactly for a flow type that is none
    of the four it names; when it returns, the flow has [flow_length]
    transforms (none for a length that is not positive); and an
    orthogonal flow is always built. *)
Theorem flow_init_flow_type (dim flow_length : Z) (flow_type : string) :
  (0 ≤ dim)%Z →
  (NormalizingFlowDensity_init dim flow_length flow_type = NotImplementedError
   ↔ ¬ known_flow_type flow_type) ∧
  (∀ transforms,
     NormalizingFlowDensity_init dim flow_length flow_type = Built transforms →
     length transforms = Z.to_nat flow_length) ∧
  (flow_type = "orthogonal_flow" →
   ∃ transforms,
     NormalizingFlowDensity_init dim flow_length flow_type = Built transforms).
Proof.
  intros Hdim. unfold NormalizingFlowDensity_init, known_flow_type.
  replace (dim <? 0)%Z with false by (symmetry; apply Z.ltb_ge; lia).
  cbv zeta.
  destruct (String.eqb_spec flow_type "radial_flow") as [->|H1];
    [|destruct (String.eqb_spec flow_type "iaf_flow") as [->|H2];
      [|destruct (String.eqb_spec flow_type "planar_flow") as [->|H3];
        [|destruct (String.eqb_spec flow_type "orthogonal_flow") as [->|H4]]]].
  1-4: split; [split; [intros H; by apply build_list_implemented in H | tauto]|];
       split; [intros ts Hts; apply build_list_length in Hts;
               by rewrite Hts, length_seq|].
  1-3: discriminate.
  - intros _. rewrite build_list_total. eauto.
  - split; [split; [intros _ [?|[?|[?|?]]]; congruence | reflexivity]|].
    split; [discriminate | congruence].
Qed.

Lemma orthogonal_loop (dim : Z) (range : list nat) (z : V) (sum : J) :
  snd (flow_loop (map (OrthogonalTransform dim) range) z sum)
  = Nat.iter (length range) (λ s, jadd s one_float) sum.
Proof.
  revert z sum. induction range as [|k range IH]; intros z sum; [reflexivity|].
  cbn [map flow_loop length]. rewrite IH.
  symmetry. exact (Nat.iter_succ_r _ (λ s, jadd s one_float) sum).
Qed.

(** X19.  In a flow built with [orthogonal_flow] the sum of the
    log-determinants that [forward] returns is [0 + 1.0 + ... + 1.0], one
    [1.0] per transform: it depends neither on the input nor on the
    weights of the linear layers, and [log_prob] adds this constant to the
    log-density of the transformed point. *)
Theorem orthogonal_flow_constant_jacobian (dim flow_length : Z)
    (transforms : list (transform V J)) (x : V) :
  NormalizingFlowDensity_init dim flow_length "orthogonal_flow" = Built transforms →
  snd (flow_forward transforms x)
    = Nat.iter (Z.to_nat flow_length) (λ s, jadd s one_float) zero ∧
  flow_log_prob transforms x
    = jadd (normal_log_prob (fst (flow_forward transforms x)))
        (Nat.iter (Z.to_nat flow_length) (λ s, jadd s one_float) zero).
Proof.
  unfold NormalizingFlowDensity_init. destruct (dim <? 0)%Z; [discriminate|].
  cbn -[seq build_list]. rewrite build_list_total. intros [= <-].
  assert (snd (flow_forward (map (OrthogonalTransform dim)
                               (seq 0 (Z.to_nat flow_length))) x)
          = Nat.iter (Z.to_nat flow_length) (λ s, jadd s one_float) zero) as Hs.
  { unfold flow_forward. rewrite orthogonal_loop, length_seq. reflexivity. }
  split; [exact Hs|].
  unfold flow_log_prob. rewrite <- Hs.
  by destruct (flow_forward _ x).
Qed.

End FlowFacts.

Lemma flow_init_flow_type_witness :
  (∃ transforms,
     @NormalizingFlowDensity_init Z Z ToyFlow.pyro 2 3 "planar_flow"
       = Built transforms ∧ length transforms = 3) ∧
  @NormalizingFlowDensity_init Z Z ToyFlow.pyro 2 3 "sylvester_flow"
    = NotImplementedError.
Proof.
  destruct (flow_init_flow_type (Pyro0 := ToyFlow.pyro) 2 3 "planar_flow")
    as (_ & Hlen & _); [lia|].
  destruct (flow_init_flow_type (Pyro0 := ToyFlow.pyro) 2 3 "sylvester_flow")
    as (Hno & _); [lia|].
  split.
  - assert (@NormalizingFlowDensity_init Z Z ToyFlow.pyro 2 3 "planar_flow"
            = Built (map (ToyFlow.shift 2) [0; 1; 2])) as E by reflexivity.
    eexists. split; [exact E | exact (Hlen _ E)].
  - apply Hno. intros [H|[H|[H|H]]]; discriminate.
Defined.

Lemma orthogonal_flow_constant_jacobian_witness :
  snd (@flow_forward Z Z ToyFlow.pyro
         (map (@OrthogonalTransform Z Z ToyFlow.pyro 2) [0; 1; 2]) 5%Z) = 3%Z.
Proof.
  exact (proj1 (orthogonal_flow_constant_jacobian (Pyro0 := ToyFlow.pyro) 2 3
                  (map (@OrthogonalTransform Z Z ToyFlow.pyro 2) [0; 1; 2]) 5%Z
                  eq_refl)).
Defined.

(** * The data loaders and the training run: properties *)

Section LoaderFacts.
Context {C B : Type} `{!Datasets C B}.

(** X20.  [get_dataset] never raises [KeyError]: for a name that is not
    in the registry it raises [ValueError], and so it does when the
    dataset class itself raises [KeyError]; any other outcome of the
    dataset class of a registered dataset without noise parameters is
    the outcome of [get_dataset]. *)
Theorem get_dataset_unsupported (dataset : string) (data_shape : list Z)
    (length : Z) :
  get_dataset dataset data_shape length ≠ Failed KeyError ∧
  (DATASETS !! dataset = None →
   get_dataset dataset data_shape length = Failed ValueError) ∧
  (∀ ds_class, DATASETS !! dataset = Some ds_class →
     dataset ≠ "gaussian_noise" → dataset ≠ "uniform_noise" →
     get_dataset dataset data_shape length =
       match construct ds_class NoArgs with
       | Failed KeyError => Failed ValueError
       | r => r
       end).
Proof.
  unfold get_dataset. split; [|split].
  - match goal with |- match ?t with _ => _ end ≠ _ => destruct t as [b|[]] end;
      discriminate.
  - intros ->. reflexivity.
  - intros ds_class -> H1 H2.
    apply String.eqb_neq in H1, H2. rewrite H1, H2.
    destruct (construct ds_class NoArgs) as [b|[]]; reflexivity.
Qed.

Lemma get_dataloader_inv (dataset split : string) (batch_size : Z)
    (data_shape : list Z) (ood_dataset : option string) (sigma : Q)
    (dl : DataLoader B) :
  get_dataloader dataset split batch_size data_shape ood_dataset sigma = Done dl →
  ∃ base,
    get_dataset dataset data_shape 10000 = Done base ∧
    dl_shuffle dl = String.eqb split "train" ∧
    dl_drop_last dl = String.eqb split "train" ∧
    dl_batch_size dl = batch_size ∧
    let which := if String.eqb split "train" then Train
                 else if String.eqb split "val" then Val else Test in
    let ds := Split base which
                (if String.eqb split "train"
                 then train_transforms data_shape sigma
                 else test_transforms data_shape sigma) in
    match ood_dataset with
    | None => dl_dataset dl = ds
    | Some ood =>
        ∃ ood_base,
          get_dataset ood data_shape (split_len base which) = Done ood_base ∧
          dl_dataset dl =
            ConcatDataset ds
              (Split ood_base Train (train_transforms data_shape sigma))
    end.
Proof.
  unfold get_dataloader.
  destruct (get_dataset dataset data_shape 10000) as [base|e]; [|discriminate].
  intros H. exists base. split; [reflexivity|].
  destruct ood_dataset as [ood|].
  - destruct (get_dataset ood data_shape _) as [ood_base|e] eqn:E; [|discriminate].
    injection H as <-. simpl. repeat split. exists ood_base. auto.
  - injection H as <-. simpl. repeat split.
Qed.

Lemma test_transforms_not_random (data_shape : list Z) (sigma : Q) :
  forallb (λ t, negb (random_augmentation t)) (test_transforms data_shape sigma)
  = true.
Proof.
  unfold test_transforms.
  destruct (List.length data_shape =? 3)%nat; destruct (positive_float sigma);
    reflexivity.
Qed.

(** X21.  A loader that [get_dataloader] builds for a split other than
    [train] neither shuffles nor drops the last batch, and its
    in-distribution part is the validation split for [val] and the test
    split for every other name, under transforms without random
    rotation, flip or crop. *)
Theorem get_dataloader_evaluation_split (dataset split : string) (batch_size : Z)
    (data_shape : list Z) (ood_dataset : option string) (sigma : Q)
    (dl : DataLoader B) :
  split ≠ "train" →
  get_dataloader dataset split batch_size data_shape ood_dataset sigma = Done dl →
  dl_shuffle dl = false ∧ dl_drop_last dl = false ∧
  ∃ base transform,
    in_distribution (dl_dataset dl)
      = Split base (if String.eqb split "val" then Val else Test) transform ∧
    forallb (λ t, negb (random_augmentation t)) transform = true.
Proof.
  intros Hs H. apply String.eqb_neq in Hs.
  destruct (get_dataloader_inv _ _ _ _ _ _ _ H) as (base & _ & Hsh & Hdr & _ & Hds).
  rewrite Hs in Hsh, Hdr, Hds. cbv zeta in Hds.
  split; [exact Hsh|]. split; [exact Hdr|].
  exists base, (test_transforms data_shape sigma).
  split; [|apply test_transforms_not_random].
  destruct ood_dataset as [ood|].
  - destruct Hds as (ood_base & _ & ->). reflexivity.
  - rewrite Hds. reflexivity.
Qed.


End LoaderFacts.

Section RunFacts.
Context {C B Mo Tr Rs : Type} `{!Datasets C B} `{!Trainer B Mo Tr Rs}.

Lemma bindW_run {A A' : Type} (m : W A) (k : A → W A') (t : list event) :
  (m ≫= k) t =
  match m t with
  | (t', Done a) => k a t'
  | (t', Failed e) => (t', Failed e)
  end.
Proof. reflexivity. Qed.

(** The loop over the test datasets builds no loader: it ends at once for
    no dataset and fails at the first call otherwise. *)
Lemma ood_loaders_run (args : run_args) (names : list string) (t : list event) :
  ood_loaders args names t =
  (t, match names with [] => Done [] | _ :: _ => Failed TypeError end).
Proof. destruct names; reflexivity. Qed.

(** X23.  [run] never returns and never gets as far as creating the
    output folder, the trainer or a loader: every call of
    [get_dataloader] in it passes the keyword [num_workers], which
    [get_dataloader] does not have, so that Python raises [TypeError] at
    the first of these calls; before it, [run] has only seeded the
    generators and, when there are no test datasets, built the model. *)
Theorem run_never_trains (args : run_args) :
  ∃ t e,
    run args [] = (t, Failed e) ∧
    forallb before_loaders t = true ∧
    (seed_everything (arg_seed args) = Done tt →
     (arg_test_ood_datasets args ≠ [] ∨
      ∃ model, new_model (arg_model_name args) [] = Done model) →
     e = TypeError).
Proof.
  unfold run. rewrite bindW_run. unfold emit at 1.
  destruct (seed_everything (arg_seed args)) as [[]|e0] eqn:Es.
  2: { eexists _, _. split; [reflexivity|]. split; [reflexivity | discriminate]. }
  rewrite bindW_run, ood_loaders_run.
  destruct (arg_test_ood_datasets args) as [|name names] eqn:En.
  2: { eexists _, _. split; [reflexivity|]. split; [reflexivity | auto]. }
  rewrite bindW_run. unfold emit at 1.
  destruct (new_model (arg_model_name args) []) as [model|e1] eqn:Em.
  - eexists _, _. split; [reflexivity|]. split; [reflexivity | auto].
  - eexists _, _. split; [reflexivity|]. split; [reflexivity|].
    intros _ [H|[model H]]; [done | discriminate].
Qed.

End RunFacts.

(** A call with the keywords of the signature binds; one with
    [num_workers] does not. *)
Lemma binds_get_dataloader :
  binds get_dataloader_signature 2 3 ["data_shape"; "sigma"; "ood_dataset"] = true ∧
  binds get_dataloader_signature 2 3
    ["data_shape"; "sigma"; "ood_dataset"; "num_workers"] = false.
Proof. split; reflexivity. Qed.

Lemma get_dataloader_evaluation_split_witness :
  ∃ dl,
    @get_dataloader unit nat ToyData.datasets "digits" "val" 32 [3; 32; 32]%Z
      None (Qmake 0 1) = Done dl ∧
    dl_shuffle dl = false ∧ dl_drop_last dl = false ∧
    in_distribution (dl_dataset dl)
      = Split 0 Val [Resize 32; CenterCrop 32; ToTensor; Normalize].
Proof.
  assert (@get_dataloader unit nat ToyData.datasets "digits" "val" 32
            [3; 32; 32]%Z None (Qmake 0 1)
          = Done (Build_DataLoader
                    (Split 0 Val [Resize 32; CenterCrop 32; ToTensor; Normalize])
                    32 true 4 false false)) as H by (vm_compute; reflexivity).
  assert ("val" ≠ "train") as Hne by discriminate.
  destruct (get_dataloader_evaluation_split (Datasets0 := ToyData.datasets)
              "digits" "val" 32 [3; 32; 32]%Z None (Qmake 0 1) _ Hne H)
    as (Hs & Hd & _).
  eexists. split; [exact H|].
  split; [exact Hs|]. split; [exact Hd | reflexivity].
Defined.


(** With one test dataset the run ends after the seeding, with none after
    the model is built, each time by [TypeError]. *)
Lemma run_in_the_small_world :
  @run unit nat unit unit unit ToyData.datasets ToyData.trainer
     (ToyData.args ["digits"]) []
    = ([SeedEverything 1], Failed TypeError) ∧
  @run unit nat unit unit unit ToyData.datasets ToyData.trainer
     (ToyData.args []) []
    = ([SeedEverything 1; NewModel "JEM"], Failed TypeError).
Proof. split; reflexivity. Qed.
